(** * cli-utils: the apply/prune engine and the inventory lifecycle

    A shallow embedding of the Go packages [object], [inventory],
    [taskrunner], [task], [prune] and [print/list], and the properties of
    the inventory update, the ownership policy, the inventory client, the
    ConfigMap codec, the pruner and the list printer. *)

From stdpp Require Import gmap strings list fin_maps pretty sorting.
From Stdlib Require Import ZArith Ascii.

Open Scope string_scope.
Open Scope list_scope.

(* The set and first-order solvers clear hypotheses they may already have
   consumed. *)
Set Warnings "-clear-no-such-hyp".

(** ** Go errors

    The code only ever inspects an error through [apierrors.IsNotFound]
    and [meta.IsNoMatchError]; every other error is passed on as it is. *)

Inductive StatusReason :=
| StatusReasonNotFound
| StatusReasonAlreadyExists
| StatusReasonConflict
| StatusReasonUnknown.

Inductive error :=
| StatusError (reason : StatusReason) (msg : string)
| NoKindMatchError (msg : string)
| Errorf (msg : string).

Definition IsNotFound (e : option error) : bool :=
  match e with
  | Some (StatusError StatusReasonNotFound _) => true
  | _ => false
  end.

Definition IsNoMatchError (e : option error) : bool :=
  match e with
  | Some (NoKindMatchError _) => true
  | _ => false
  end.

(** A Go result pair [(value, err)]. *)
Inductive result (A : Type) :=
| Ok (a : A)
| Fail (e : error).
Arguments Ok {A} a.
Arguments Fail {A} e.

(** ** package object *)

Module object.

Record GroupKind := { Group : string; Kind : string }.

Record ObjMetadata := {
  Namespace : string;
  Name : string;
  GK : GroupKind
}.

#[global] Instance GroupKind_eq_dec : EqDecision GroupKind.
Proof. solve_decision. Defined.

#[global] Instance ObjMetadata_eq_dec : EqDecision ObjMetadata.
Proof. solve_decision. Defined.

#[global] Instance GroupKind_countable : Countable GroupKind.
Proof.
  refine (inj_countable' (fun gk => (Group gk, Kind gk))
            (fun p => {| Group := p.1; Kind := p.2 |}) _).
  by intros [].
Defined.

#[global] Instance ObjMetadata_countable : Countable ObjMetadata.
Proof.
  refine (inj_countable' (fun o => (Namespace o, Name o, GK o))
            (fun p => {| Namespace := p.1.1; Name := p.1.2; GK := p.2 |}) _).
  by intros [].
Defined.

(** [ObjMetadataSet] is a Go slice used as a set. *)
Abbreviation ObjMetadataSet := (list ObjMetadata).

(** Modelled from the spec: [ObjMetadataSet.Equal] is not among the
    sources; section 3 gives it as "set equality ignoring order". *)
Definition Equal (a b : ObjMetadataSet) : Prop :=
  (list_to_set a : gset ObjMetadata) = list_to_set b.

#[global] Instance Equal_dec a b : Decision (Equal a b).
Proof. unfold Equal. apply _. Defined.

(** [ObjMetadata.String] and [ParseObjMetadata] are not among the sources:
    the code that calls them takes the pair as a parameter. *)
Record StringCodec := {
  String : ObjMetadata -> string;
  ParseObjMetadata : string -> result ObjMetadata
}.

(** Modelled from the spec: section 3 gives the canonical string form as
    [group/namespace/name/kind], which parses back. *)
Fixpoint splitOn (sep : Ascii.ascii) (s : string) : list string :=
  match s with
  | EmptyString => [EmptyString]
  | String.String c rest =>
      if decide (c = sep) then EmptyString :: splitOn sep rest
      else match splitOn sep rest with
           | [] => [String.String c EmptyString]
           | field :: fields => String.String c field :: fields
           end
  end.

Definition canonicalString (o : ObjMetadata) : string :=
  Group (GK o) +:+ "/" +:+ Namespace o +:+ "/" +:+ Name o +:+ "/"
  +:+ Kind (GK o).

Definition canonicalParse (s : string) : result ObjMetadata :=
  match splitOn "/"%char s with
  | [g; ns; n; k] =>
      Ok {| Namespace := ns; Name := n; GK := {| Group := g; Kind := k |} |}
  | _ => Fail (Errorf ("unable to parse stored object metadata: " +:+ s))
  end.

Definition canonical : StringCodec :=
  {| String := canonicalString; ParseObjMetadata := canonicalParse |}.

End object.

Import object.

(** ** The unstructured resource document

    [unstructured.Unstructured] is a [map[string]interface{}]; the code
    reads and writes it only through the accessors below, so the document
    is a record of the fields those accessors reach.  The record stands
    for a document whose content map is allocated, as that of every
    object read from the cluster or built from a manifest is. *)

(** The ["data"] field as [unstructured.NestedStringMap] sees it. *)
Inductive DataField :=
| DataAbsent
| DataStringMap (m : gmap string string)
| DataMalformed.

(** The ["status"] field as [NestedInt64 (.., "status",
    "observedGeneration")] and [SetNestedField] see it. *)
Inductive ObservedGeneration :=
| OGAbsent
| OGInt (g : Z)
| OGNotInt.

Inductive StatusField :=
| StatusAbsent
| StatusNotMap
| StatusMap (og : ObservedGeneration).

Record Unstructured := {
  uGroup : string;
  uKind : string;
  uNamespace : string;
  uName : string;
  uLabels : gmap string string;
  uAnnotations : gmap string string;
  uResourceVersion : string;
  uGeneration : Z;
  uData : DataField;
  uStatus : StatusField
}.

Definition GetName (u : Unstructured) : string := uName u.
Definition GetNamespace (u : Unstructured) : string := uNamespace u.
Definition GetLabels (u : Unstructured) : gmap string string := uLabels u.
Definition GetAnnotations (u : Unstructured) : gmap string string :=
  uAnnotations u.
Definition GetResourceVersion (u : Unstructured) : string :=
  uResourceVersion u.
Definition GetGeneration (u : Unstructured) : Z := uGeneration u.

Definition SetAnnotations (u : Unstructured) (a : gmap string string)
  : Unstructured :=
  {| uGroup := uGroup u; uKind := uKind u; uNamespace := uNamespace u;
     uName := uName u; uLabels := uLabels u; uAnnotations := a;
     uResourceVersion := uResourceVersion u; uGeneration := uGeneration u;
     uData := uData u; uStatus := uStatus u |}.

Definition SetResourceVersion (u : Unstructured) (rv : string)
  : Unstructured :=
  {| uGroup := uGroup u; uKind := uKind u; uNamespace := uNamespace u;
     uName := uName u; uLabels := uLabels u;
     uAnnotations := uAnnotations u;
     uResourceVersion := rv; uGeneration := uGeneration u;
     uData := uData u; uStatus := uStatus u |}.

Definition SetData (u : Unstructured) (d : DataField) : Unstructured :=
  {| uGroup := uGroup u; uKind := uKind u; uNamespace := uNamespace u;
     uName := uName u; uLabels := uLabels u;
     uAnnotations := uAnnotations u;
     uResourceVersion := uResourceVersion u;
     uGeneration := uGeneration u;
     uData := d; uStatus := uStatus u |}.

Definition SetStatus (u : Unstructured) (s : StatusField) : Unstructured :=
  {| uGroup := uGroup u; uKind := uKind u; uNamespace := uNamespace u;
     uName := uName u; uLabels := uLabels u;
     uAnnotations := uAnnotations u;
     uResourceVersion := uResourceVersion u;
     uGeneration := uGeneration u;
     uData := uData u; uStatus := s |}.

(** [unstructured.NestedStringMap(obj, "data")]: the map, whether the field
    exists, and an error when the field is not a string map. *)
Definition NestedStringMap_data (u : Unstructured)
  : gmap string string * bool * option error :=
  match uData u with
  | DataAbsent => (∅, false, None)
  | DataStringMap m => (m, true, None)
  | DataMalformed => (∅, false, Some (Errorf "accessor error"))
  end.

(** [unstructured.SetNestedStringMap(obj, m, "data")]: with a single path
    element there is no intermediate field to traverse, so it cannot fail. *)
Definition SetNestedStringMap_data (u : Unstructured)
  (m : gmap string string) : Unstructured * option error :=
  (SetData u (DataStringMap m), None).

(** [unstructured.NestedInt64(obj, "status", "observedGeneration")]. *)
Definition NestedInt64_observedGeneration (u : Unstructured)
  : Z * bool * option error :=
  match uStatus u with
  | StatusAbsent => (0%Z, false, None)
  | StatusNotMap => (0%Z, false, Some (Errorf "accessor error"))
  | StatusMap OGAbsent => (0%Z, false, None)
  | StatusMap (OGInt g) => (g, true, None)
  | StatusMap OGNotInt => (0%Z, false, Some (Errorf "accessor error"))
  end.

(** [unstructured.SetNestedField(obj, g, "status", "observedGeneration")]
    fails when ["status"] exists and is not a map. *)
Definition SetNestedField_observedGeneration (u : Unstructured) (g : Z)
  : Unstructured * option error :=
  match uStatus u with
  | StatusNotMap => (u, Some (Errorf "value cannot be set"))
  | _ => (SetStatus u (StatusMap (OGInt g)), None)
  end.

(** Modelled from the spec: [object.UnstructuredToObjMetaOrDie] is not
    among the sources; section 3 gives the id of an object as its group,
    kind, namespace and name.  The function dies on a document without
    these, which the record excludes. *)
Definition UnstructuredToObjMetaOrDie (u : Unstructured) : ObjMetadata :=
  {| Namespace := GetNamespace u; Name := GetName u;
     GK := {| Group := uGroup u; Kind := uKind u |} |}.

Definition UnstructuredsToObjMetasOrDie (us : list Unstructured)
  : ObjMetadataSet :=
  UnstructuredToObjMetaOrDie <$> us.

(** ** package event

    Modelled from the spec: the [event] package is not among the sources.
    Section 6 lists the event variants and their operations; the fields are
    those the printer and the pruner read or set.  Each operation type is a
    Go integer enumeration, whose zero value is the unspecified (for waits:
    pending) operation carried by an event that reports a failure. *)

Module event.

Inductive ApplyEventOperation :=
| ApplyUnspecified | ServersideApplied | Created | Unchanged | Configured.

Inductive PruneEventOperation :=
| PruneUnspecified | Pruned | PruneSkipped.

Inductive DeleteEventOperation :=
| DeleteUnspecified | Deleted | DeleteSkipped.

Inductive WaitEventOperation :=
| ReconcilePending | Reconciled | ReconcileSkipped | ReconcileTimeout.

Inductive ResourceAction :=
| ApplyAction | PruneAction | DeleteAction | WaitAction | InventoryAction.

Record ActionGroup := { agName : string; agAction : ResourceAction }.

Record ApplyEvent := {
  aeIdentifier : ObjMetadata;
  aeOperation : ApplyEventOperation;
  aeError : option error
}.

Record StatusEvent := { seIdentifier : ObjMetadata; seStatus : string }.

Record PruneEvent := {
  peGroupName : string;
  peIdentifier : ObjMetadata;
  peOperation : PruneEventOperation;
  peObject : option Unstructured;
  peReason : string;
  peError : option error
}.

Record DeleteEvent := {
  deGroupName : string;
  deIdentifier : ObjMetadata;
  deOperation : DeleteEventOperation;
  deObject : option Unstructured;
  deReason : string;
  deError : option error
}.

Record WaitEvent := {
  weIdentifier : ObjMetadata;
  weOperation : WaitEventOperation
}.

Record ActionGroupEvent := {
  ageGroupName : string;
  ageAction : ResourceAction
}.

(** [Event] with its [Type] tag and the payload that tag selects. *)
Inductive Event :=
| InitType (ags : list ActionGroup)
| ErrorType (err : option error)
| ApplyType (ae : ApplyEvent)
| StatusType (se : StatusEvent)
| PruneType (pe : PruneEvent)
| DeleteType (de : DeleteEvent)
| WaitType (we : WaitEvent)
| ActionGroupType (age : ActionGroupEvent).

End event.

(** ** package taskrunner

    Modelled from the spec: [TaskContext] is not among the sources.
    Sections 3 and 4.3 give it as the per-run accumulator of outcome sets,
    with [SendEvent] enqueueing on the single event channel. *)

Module taskrunner.

Record TaskContext := {
  successfulApplies : gset ObjMetadata;
  failedApplies : gset ObjMetadata;
  skippedApplies : gset ObjMetadata;
  successfulDeletes : gset ObjMetadata;
  failedDeletes : gset ObjMetadata;
  skippedDeletes : gset ObjMetadata;
  abandonedObjects : gset ObjMetadata;
  eventChannel : list event.Event
}.

Definition NewTaskContext : TaskContext :=
  {| successfulApplies := ∅; failedApplies := ∅; skippedApplies := ∅;
     successfulDeletes := ∅; failedDeletes := ∅; skippedDeletes := ∅;
     abandonedObjects := ∅; eventChannel := [] |}.

Definition AddSuccessfulApply (id : ObjMetadata) (tc : TaskContext) :=
  {| successfulApplies := {[id]} ∪ successfulApplies tc;
     failedApplies := failedApplies tc;
     skippedApplies := skippedApplies tc;
     successfulDeletes := successfulDeletes tc;
     failedDeletes := failedDeletes tc;
     skippedDeletes := skippedDeletes tc;
     abandonedObjects := abandonedObjects tc;
     eventChannel := eventChannel tc |}.

Definition AddFailedApply (id : ObjMetadata) (tc : TaskContext) :=
  {| successfulApplies := successfulApplies tc;
     failedApplies := {[id]} ∪ failedApplies tc;
     skippedApplies := skippedApplies tc;
     successfulDeletes := successfulDeletes tc;
     failedDeletes := failedDeletes tc;
     skippedDeletes := skippedDeletes tc;
     abandonedObjects := abandonedObjects tc;
     eventChannel := eventChannel tc |}.

Definition AddSkippedApply (id : ObjMetadata) (tc : TaskContext) :=
  {| successfulApplies := successfulApplies tc;
     failedApplies := failedApplies tc;
     skippedApplies := {[id]} ∪ skippedApplies tc;
     successfulDeletes := successfulDeletes tc;
     failedDeletes := failedDeletes tc;
     skippedDeletes := skippedDeletes tc;
     abandonedObjects := abandonedObjects tc;
     eventChannel := eventChannel tc |}.

Definition AddFailedDelete (id : ObjMetadata) (tc : TaskContext) :=
  {| successfulApplies := successfulApplies tc;
     failedApplies := failedApplies tc;
     skippedApplies := skippedApplies tc;
     successfulDeletes := successfulDeletes tc;
     failedDeletes := {[id]} ∪ failedDeletes tc;
     skippedDeletes := skippedDeletes tc;
     abandonedObjects := abandonedObjects tc;
     eventChannel := eventChannel tc |}.

Definition AddSkippedDelete (id : ObjMetadata) (tc : TaskContext) :=
  {| successfulApplies := successfulApplies tc;
     failedApplies := failedApplies tc;
     skippedApplies := skippedApplies tc;
     successfulDeletes := successfulDeletes tc;
     failedDeletes := failedDeletes tc;
     skippedDeletes := {[id]} ∪ skippedDeletes tc;
     abandonedObjects := abandonedObjects tc;
     eventChannel := eventChannel tc |}.

Definition AddAbandonedObject (id : ObjMetadata) (tc : TaskContext) :=
  {| successfulApplies := successfulApplies tc;
     failedApplies := failedApplies tc;
     skippedApplies := skippedApplies tc;
     successfulDeletes := successfulDeletes tc;
     failedDeletes := failedDeletes tc;
     skippedDeletes := skippedDeletes tc;
     abandonedObjects := {[id]} ∪ abandonedObjects tc;
     eventChannel := eventChannel tc |}.

Definition SendEvent (e : event.Event) (tc : TaskContext) :=
  {| successfulApplies := successfulApplies tc;
     failedApplies := failedApplies tc;
     skippedApplies := skippedApplies tc;
     successfulDeletes := successfulDeletes tc;
     failedDeletes := failedDeletes tc;
     skippedDeletes := skippedDeletes tc;
     abandonedObjects := abandonedObjects tc;
     eventChannel := eventChannel tc ++ [e] |}.

(** What a finished task reports on the task channel. *)
Record TaskResult := { trErr : option error }.

End taskrunner.

(** ** package actuation

    Modelled from the spec: the [actuation] API types are not among the
    sources; section 3 gives a status as the triple of a strategy, an
    actuation status and a reconcile status, kept per object reference. *)

Module actuation.

Inductive ActuationStrategy := ActuationStrategyApply | ActuationStrategyDelete.

Inductive ActuationStatus :=
| ActuationPending | ActuationSucceeded | ActuationSkipped | ActuationFailed.

Inductive ReconcileStatus :=
| ReconcilePending | ReconcileSucceeded | ReconcileSkipped
| ReconcileFailed | ReconcileTimeout.

Record ObjectReference := {
  orGroup : string;
  orKind : string;
  orNamespace : string;
  orName : string
}.

Record ObjectStatus := {
  osObjectReference : ObjectReference;
  Strategy : ActuationStrategy;
  Actuation : ActuationStatus;
  Reconcile : ReconcileStatus
}.

Definition ActuationStrategy_String (s : ActuationStrategy) : string :=
  match s with
  | ActuationStrategyApply => "Apply"
  | ActuationStrategyDelete => "Delete"
  end.

Definition ActuationStatus_String (s : ActuationStatus) : string :=
  match s with
  | ActuationPending => "Pending"
  | ActuationSucceeded => "Succeeded"
  | ActuationSkipped => "Skipped"
  | ActuationFailed => "Failed"
  end.

Definition ReconcileStatus_String (s : ReconcileStatus) : string :=
  match s with
  | ReconcilePending => "Pending"
  | ReconcileSucceeded => "Succeeded"
  | ReconcileSkipped => "Skipped"
  | ReconcileFailed => "Failed"
  | ReconcileTimeout => "Timeout"
  end.

End actuation.

(** ** package dynamic: the remote resource client

    [dynamic.Interface] belongs to the Kubernetes client library.  The
    remote store is a state [World]; a read inspects it and a write returns
    the next one. *)

Module dynamic.

Record GroupVersionResource := {
  gvrGroup : string;
  gvrVersion : string;
  gvrResource : string
}.

Inductive DeletionPropagation :=
| DeletePropagationOrphan
| DeletePropagationBackground
| DeletePropagationForeground.

Record DeleteOptions := { PropagationPolicy : option DeletionPropagation }.

(** [c.Resource(gvr).Namespace(ns).Op(ctx, ..)]. *)
Record Interface (World : Type) := {
  Get : GroupVersionResource -> string -> string -> World ->
        result Unstructured;
  Create : GroupVersionResource -> string -> Unstructured -> World ->
           result Unstructured * World;
  Update : GroupVersionResource -> string -> Unstructured -> World ->
           result Unstructured * World;
  UpdateStatus : GroupVersionResource -> string -> Unstructured -> World ->
                 result Unstructured * World;
  Delete : GroupVersionResource -> string -> string -> DeleteOptions ->
           World -> option error * World
}.
Arguments Get {World} _ _ _ _ _.
Arguments Create {World} _ _ _ _ _.
Arguments Update {World} _ _ _ _ _.
Arguments UpdateStatus {World} _ _ _ _ _.
Arguments Delete {World} _ _ _ _ _ _.

End dynamic.

(** ** package inventory *)

Module inventory.

Definition OwningInventoryKey : string := "config.k8s.io/owning-inventory".

(** [common.InventoryLabel]. *)
Definition InventoryLabel : string := "cli-utils.sigs.k8s.io/inventory-id".

(** [BaseInventory]: the in-memory representation of the inventory. *)
Record BaseInventory := {
  Objs : ObjMetadataSet;
  ObjStatuses : list actuation.ObjectStatus
}.

Definition Objects (inv : BaseInventory) : ObjMetadataSet := Objs inv.

Definition ObjectStatuses (inv : BaseInventory)
  : list actuation.ObjectStatus := ObjStatuses inv.

Definition SetObjects (inv : BaseInventory) (objs : ObjMetadataSet)
  : BaseInventory :=
  {| Objs := objs; ObjStatuses := ObjStatuses inv |}.

Definition SetObjectStatuses (inv : BaseInventory)
  (statuses : list actuation.ObjectStatus) : BaseInventory :=
  {| Objs := Objs inv; ObjStatuses := statuses |}.

(** [UnstructuredInventory]: [ClusterObj] is a pointer and may be nil. *)
Record UnstructuredInventory := {
  uiBase : BaseInventory;
  ClusterObj : option Unstructured
}.

Definition ui_ID (ui : UnstructuredInventory) : string :=
  match ClusterObj ui with
  | None => ""
  | Some o => default "" (GetLabels o !! InventoryLabel)
  end.

Definition ui_SetClusterObj (ui : UnstructuredInventory)
  (o : Unstructured) : UnstructuredInventory :=
  {| uiBase := uiBase ui; ClusterObj := Some o |}.

Definition ui_SetObjects (ui : UnstructuredInventory)
  (objs : ObjMetadataSet) : UnstructuredInventory :=
  {| uiBase := SetObjects (uiBase ui) objs; ClusterObj := ClusterObj ui |}.

(** [FakeInventory] of the fake client. *)
Record FakeInventory := {
  fiBase : BaseInventory;
  InventoryID : string
}.

Definition fi_ID (fi : FakeInventory) : string := InventoryID fi.

(** The [Inventory] interface with its two implementations, both held by
    pointer; [NilInventory] is the nil interface value and
    [UnstructuredInv None] a nil [*UnstructuredInventory]. *)
Inductive Inventory :=
| NilInventory
| UnstructuredInv (ui : option UnstructuredInventory)
| FakeInv (fi : FakeInventory).

(** [inv.Objects()] / [inv.SetObjects(..)] on a non-nil implementation;
    on the absent receiver the Go call panics, which no caller below
    reaches. *)
Definition Inventory_Objects (inv : Inventory) : ObjMetadataSet :=
  match inv with
  | UnstructuredInv (Some ui) => Objects (uiBase ui)
  | FakeInv fi => Objects (fiBase fi)
  | _ => []
  end.

Definition Inventory_SetObjects (inv : Inventory) (objs : ObjMetadataSet)
  : Inventory :=
  match inv with
  | UnstructuredInv (Some ui) => UnstructuredInv (Some (ui_SetObjects ui objs))
  | FakeInv fi =>
      FakeInv {| fiBase := SetObjects (fiBase fi) objs;
                 InventoryID := InventoryID fi |}
  | _ => inv
  end.

Record UpdateOptions := { UpdateStatus : bool }.

(** *** The fake client (testing implementation of [Client]) *)

Record FakeClient := {
  Inv : Inventory;
  Err : option error
}.

Definition NewFakeClient (objs : ObjMetadataSet) : FakeClient :=
  {| Inv := FakeInv {| InventoryID := "fake-inventory";
                       fiBase := {| Objs := objs; ObjStatuses := [] |} |};
     Err := None |}.

Definition FakeClient_Get (fic : FakeClient) : result Inventory :=
  match Err fic with
  | Some e => Fail e
  | None => Ok (Inv fic)
  end.

Definition FakeClient_Update (fic : FakeClient) (inv : Inventory)
  (opts : UpdateOptions) : option error * FakeClient :=
  match Err fic with
  | Some e => (Some e, fic)
  | None => (None, {| Inv := inv; Err := Err fic |})
  end.

Definition SetError (fic : FakeClient) (err : error) : FakeClient :=
  {| Inv := Inv fic; Err := Some err |}.

Definition ClearError (fic : FakeClient) : FakeClient :=
  {| Inv := Inv fic; Err := None |}.

(** *** The ConfigMap codec *)

(** Modelled from the spec: [ObjMetadataFromObjectReference] is not among
    the sources; a reference names an object by the same four fields. *)
Definition ObjMetadataFromObjectReference (r : actuation.ObjectReference)
  : ObjMetadata :=
  {| Namespace := actuation.orNamespace r; Name := actuation.orName r;
     GK := {| Group := actuation.orGroup r; Kind := actuation.orKind r |} |}.

Definition dquote : string := String.String "034"%char EmptyString.

Definition quoted (s : string) : string := dquote +:+ s +:+ dquote.

(** [json.Marshal] of a string map writes the keys in sorted order; on
    such a map it returns no error. *)
Definition stringFrom (status : actuation.ObjectStatus) : string :=
  let data :=
    "{" +:+ quoted "actuation" +:+ ":"
        +:+ quoted (actuation.ActuationStatus_String
                      (actuation.Actuation status))
    +:+ "," +:+ quoted "reconcile" +:+ ":"
        +:+ quoted (actuation.ReconcileStatus_String
                      (actuation.Reconcile status))
    +:+ "," +:+ quoted "strategy" +:+ ":"
        +:+ quoted (actuation.ActuationStrategy_String
                      (actuation.Strategy status))
    +:+ "}" in
  if decide (data = "{}") then "" else data.

Definition buildObjMap (codec : StringCodec) (objMetas : ObjMetadataSet)
  (objStatus : list actuation.ObjectStatus) : gmap string string :=
  let objStatusMap : gmap ObjMetadata actuation.ObjectStatus :=
    foldl (fun m status =>
             <[ObjMetadataFromObjectReference
                 (actuation.osObjectReference status) := status]> m)
          ∅ objStatus in
  foldl (fun objMap objMetadata =>
           match objStatusMap !! objMetadata with
           | Some status =>
               <[String codec objMetadata := stringFrom status]> objMap
           | None => <[String codec objMetadata := ""]> objMap
           end)
        ∅ objMetas.

(** The loop of [configMapToInventory] over the keys of the data map:
    parse each key and append it, or stop at the first parse error. *)
Fixpoint parseKeys (codec : StringCodec) (keys : list string)
  (objs : ObjMetadataSet) : result ObjMetadataSet :=
  match keys with
  | [] => Ok objs
  | objStr :: rest =>
      match ParseObjMetadata codec objStr with
      | Fail e => Fail e
      | Ok obj => parseKeys codec rest (objs ++ [obj])
      end
  end.

(** [for objStr := range objMap]: Go leaves the order of a map range
    open; the keys are taken in the order of [map_to_list]. *)
Definition configMapToInventory (codec : StringCodec)
  (configMap : Unstructured) : result UnstructuredInventory :=
  match NestedStringMap_data configMap with
  | (_, _, Some _) =>
      Fail (Errorf "error retrieving object metadata from inventory object")
  | (objMap, exists_, None) =>
      if exists_ then
        match parseKeys codec (map_to_list objMap).*1 [] with
        | Fail e => Fail e
        | Ok objs =>
            Ok {| uiBase := {| Objs := objs; ObjStatuses := [] |};
                  ClusterObj := Some configMap |}
        end
      else
        Ok {| uiBase := {| Objs := []; ObjStatuses := [] |};
              ClusterObj := Some configMap |}
  end.

(** [inv.ClusterObj.DeepCopy()] of a nil pointer is nil, and
    [UnstructuredContent] on it dereferences nil: a run-time panic, which
    reaches the caller like an error no caller inspects. *)
Definition nilPointerPanic : error :=
  Errorf "panic: invalid memory address or nil pointer dereference".

Definition inventoryToConfigMap (codec : StringCodec)
  (inv : UnstructuredInventory) : result Unstructured :=
  match ClusterObj inv with
  | None => Fail nilPointerPanic
  | Some clusterObj =>
      let newConfigMap := clusterObj in
      let objMap := buildObjMap codec (Objects (uiBase inv))
                      (ObjectStatuses (uiBase inv)) in
      match SetNestedStringMap_data newConfigMap objMap with
      | (_, Some err) => Fail err
      | (newConfigMap, None) => Ok newConfigMap
      end
  end.

(** *** The client over one unstructured object *)

(** Modelled from the spec: the [StatusPolicy] type is not among the
    sources; [Update] only compares it with [StatusPolicyNone]. *)
Inductive StatusPolicy := StatusPolicyNone | StatusPolicyAll.

#[global] Instance StatusPolicy_eq_dec : EqDecision StatusPolicy.
Proof. solve_decision. Defined.

Record UnstructuredClient (World : Type) := {
  client : dynamic.Interface World;
  resource : dynamic.GroupVersionResource;
  statusPolicy : StatusPolicy;
  fromUnstructured : Unstructured -> result UnstructuredInventory;
  toUnstructured : UnstructuredInventory -> result Unstructured
}.
Arguments client {World} _.
Arguments resource {World} _.
Arguments statusPolicy {World} _.
Arguments fromUnstructured {World} _ _.
Arguments toUnstructured {World} _ _.

(** [Update]: the error, the inventory record as the call leaves it (the
    record is updated in place through the pointer) and the next world. *)
Definition Update {World} (cic : UnstructuredClient World)
  (inv : Inventory) (opts : UpdateOptions) (w : World)
  : option error * Inventory * World :=
  match inv with
  | UnstructuredInv (Some ui) =>
      match toUnstructured cic ui with
      | Fail err => (Some err, inv, w)
      | Ok uObj =>
          match dynamic.Update (client cic) (resource cic)
                  (GetNamespace uObj) uObj w with
          | (Fail err, w1) =>
              if IsNotFound (Some err) then
                match dynamic.Create (client cic) (resource cic)
                        (GetNamespace uObj) uObj w1 with
                | (Fail err', w2) => (Some err', inv, w2)
                | (Ok newObj, w2) =>
                    (None,
                     UnstructuredInv (Some (ui_SetClusterObj ui newObj)),
                     w2)
                end
              else (Some err, inv, w1)
          | (Ok newObj, w1) =>
              let ui1 := ui_SetClusterObj ui newObj in
              if bool_decide (statusPolicy cic = StatusPolicyNone)
                 || negb (UpdateStatus opts)
              then (None, UnstructuredInv (Some ui1), w1)
              else
                let uObj1 :=
                  SetResourceVersion uObj (GetResourceVersion newObj) in
                match NestedInt64_observedGeneration newObj with
                | (_, _, Some err) =>
                    (Some err, UnstructuredInv (Some ui1), w1)
                | (_, ok, None) =>
                    let '(uObj2, err) :=
                      if ok then
                        SetNestedField_observedGeneration uObj1
                          (GetGeneration newObj)
                      else (uObj1, None) in
                    match err with
                    | Some err => (Some err, UnstructuredInv (Some ui1), w1)
                    | None =>
                        match dynamic.UpdateStatus (client cic)
                                (resource cic) (GetNamespace uObj2) uObj2
                                w1 with
                        | (Fail err, w2) =>
                            (Some err, UnstructuredInv (Some ui1), w2)
                        | (Ok newObj2, w2) =>
                            (None,
                             UnstructuredInv
                               (Some (ui_SetClusterObj ui1 newObj2)),
                             w2)
                        end
                    end
                end
          end
      end
  | UnstructuredInv None => (Some (Errorf "inventory is nil"), inv, w)
  | _ => (Some (Errorf "expected ConfigMapInventory"), inv, w)
  end.

(** The [Info] interface, read through its methods; an
    [UnstructuredInventory] implements it from its [ClusterObj]. *)
Record Info := { infoName : string; infoNamespace : string }.

Definition ui_Name (ui : UnstructuredInventory) : string :=
  match ClusterObj ui with
  | None => ""
  | Some o => GetName o
  end.

Definition ui_Namespace (ui : UnstructuredInventory) : string :=
  match ClusterObj ui with
  | None => ""
  | Some o => GetNamespace o
  end.

Definition ui_Info (ui : UnstructuredInventory) : Info :=
  {| infoName := ui_Name ui; infoNamespace := ui_Namespace ui |}.

Definition Get {World} (cic : UnstructuredClient World) (id : option Info)
  (w : World) : result Inventory :=
  match id with
  | None => Fail (Errorf "id is nil")
  | Some id =>
      match dynamic.Get (client cic) (resource cic) (infoNamespace id)
              (infoName id) w with
      | Fail err => Fail err
      | Ok obj =>
          match fromUnstructured cic obj with
          | Fail err => Fail err
          | Ok ui => Ok (UnstructuredInv (Some ui))
          end
      end
  end.

End inventory.

(** *** The inventory policy

    Modelled from the spec: [policy.go] is not among the sources, only its
    table test is.  Section 4.2 gives the three policies in words:
    [MustMatch] operates only if the owner annotation equals the current
    inventory id, [AdoptIfNoInventory] additionally when the object carries
    no owner annotation, and [AdoptAll] regardless of the annotation.  The
    test adds the nil object: it can be applied and cannot be pruned.  The
    error value [CanApply] returns next to its verdict is discarded by the
    test and described nowhere, so only the verdict is modelled. *)

Module policy.

Inductive InventoryPolicy :=
| InventoryPolicyMustMatch
| AdoptIfNoInventory
| AdoptAll.

Inductive inventoryIDMatchStatus := Empty | Match | NoMatch.

#[global] Instance inventoryIDMatchStatus_eq_dec :
  EqDecision inventoryIDMatchStatus.
Proof. solve_decision. Defined.

(** [fakeInventoryInfo] of the test: an [InventoryInfo] is read through
    its [ID] only. *)
Record InventoryInfo := { ID : string }.

(** Modelled from the spec: [InventoryIDMatch] (not among the sources)
    compares the owner annotation with the inventory id: [Empty] without
    annotation, [Match] or [NoMatch] otherwise. *)
Definition InventoryIDMatch (inv : InventoryInfo) (obj : Unstructured)
  : inventoryIDMatchStatus :=
  match GetAnnotations obj !! inventory.OwningInventoryKey with
  | None => Empty
  | Some value => if decide (value = ID inv) then Match else NoMatch
  end.

(** Modelled from the spec: the three policies of section 4.2, in its
    words. *)
Definition permitted (policy : InventoryPolicy)
  (st : inventoryIDMatchStatus) : bool :=
  match policy with
  | InventoryPolicyMustMatch => bool_decide (st = Match)
  | AdoptIfNoInventory => bool_decide (st = Empty) || bool_decide (st = Match)
  | AdoptAll => true
  end.

(** Modelled from the spec: [CanApply] (not among the sources); a nil
    object can be applied. *)
Definition CanApply (inv : InventoryInfo) (obj : option Unstructured)
  (policy : InventoryPolicy) : bool :=
  match obj with
  | None => true
  | Some o => permitted policy (InventoryIDMatch inv o)
  end.

(** Modelled from the spec: [CanPrune] (not among the sources); a nil
    object cannot be pruned. *)
Definition CanPrune (inv : InventoryInfo) (obj : option Unstructured)
  (policy : InventoryPolicy) : bool :=
  match obj with
  | None => false
  | Some o => permitted policy (InventoryIDMatch inv o)
  end.

(** The truth table of section 4.2, row by row. *)
Definition policyMatrix (st : inventoryIDMatchStatus)
  (policy : InventoryPolicy) : bool :=
  match st, policy with
  | Empty, InventoryPolicyMustMatch => false
  | Empty, AdoptIfNoInventory => true
  | Empty, AdoptAll => true
  | Match, InventoryPolicyMustMatch => true
  | Match, AdoptIfNoInventory => true
  | Match, AdoptAll => true
  | NoMatch, InventoryPolicyMustMatch => false
  | NoMatch, AdoptIfNoInventory => false
  | NoMatch, AdoptAll => true
  end.

(** [testObjectWithAnnotation] of policy_test.go. *)
Definition testObjectWithAnnotation (key val : string) : Unstructured :=
  let obj :=
    {| uGroup := ""; uKind := "Deployment"; uNamespace := "ns";
       uName := "foo"; uLabels := ∅; uAnnotations := ∅;
       uResourceVersion := ""; uGeneration := 0; uData := DataAbsent;
       uStatus := StatusAbsent |} in
  if decide (key ≠ "") then SetAnnotations obj {[ key := val ]} else obj.

Record policyTestCase := {
  ptName : string;
  ptObj : option Unstructured;
  ptInv : InventoryInfo;
  ptPolicy : InventoryPolicy;
  ptExpected : bool
}.

(** The cases [TestCanApply] and [TestCanPrune] share, with the verdict
    both tables expect; the nil object, on which the two differ, is apart.  A case that sets no
    policy runs with the zero value, [InventoryPolicyMustMatch]. *)
Definition policyCases : list policyTestCase :=
  [ {| ptName := "empty with AdoptIfNoInventory";
       ptObj := Some (testObjectWithAnnotation "" "");
       ptInv := {| ID := "random-id" |};
       ptPolicy := AdoptIfNoInventory; ptExpected := true |};
    {| ptName := "empty with AdoptAll";
       ptObj := Some (testObjectWithAnnotation "" "");
       ptInv := {| ID := "random-id" |};
       ptPolicy := AdoptAll; ptExpected := true |};
    {| ptName := "empty with InventoryPolicyMustMatch";
       ptObj := Some (testObjectWithAnnotation "" "");
       ptInv := {| ID := "random-id" |};
       ptPolicy := InventoryPolicyMustMatch;
       ptExpected := false |};
    {| ptName := "matched with InventoryPolicyMustMatch";
       ptObj := Some (testObjectWithAnnotation
                        inventory.OwningInventoryKey "matched");
       ptInv := {| ID := "matched" |};
       ptPolicy := InventoryPolicyMustMatch;
       ptExpected := true |};
    {| ptName := "matched with AdoptIfNoInventory";
       ptObj := Some (testObjectWithAnnotation
                        inventory.OwningInventoryKey "matched");
       ptInv := {| ID := "matched" |};
       ptPolicy := AdoptIfNoInventory;
       ptExpected := true |};
    {| ptName := "matched with AloptAll";
       ptObj := Some (testObjectWithAnnotation
                        inventory.OwningInventoryKey "matched");
       ptInv := {| ID := "matched" |};
       ptPolicy := AdoptAll; ptExpected := true |};
    {| ptName := "unmatched with InventoryPolicyMustMatch";
       ptObj := Some (testObjectWithAnnotation
                        inventory.OwningInventoryKey "unmatched");
       ptInv := {| ID := "random-id" |};
       ptPolicy := InventoryPolicyMustMatch;
       ptExpected := false |};
    {| ptName := "unmatched with AdoptIfNoInventory";
       ptObj := Some (testObjectWithAnnotation
                        inventory.OwningInventoryKey "unmatched");
       ptInv := {| ID := "random-id" |};
       ptPolicy := AdoptIfNoInventory;
       ptExpected := false |};
    {| ptName := "unmatched with AdoptAll";
       ptObj := Some (testObjectWithAnnotation
                        inventory.OwningInventoryKey "unmatched");
       ptInv := {| ID := "random-id" |};
       ptPolicy := AdoptAll; ptExpected := true |} ].

Definition nilObjectCase (expected : bool) : policyTestCase :=
  {| ptName := "nil object"; ptObj := None;
     ptInv := {| ID := "random-id" |};
     ptPolicy := InventoryPolicyMustMatch; ptExpected := expected |}.

Definition TestCanApply_cases : list policyTestCase :=
  nilObjectCase true :: policyCases.

Definition TestCanPrune_cases : list policyTestCase :=
  nilObjectCase false :: policyCases.

Definition TestCanApply : bool :=
  forallb (fun tc =>
    bool_decide (CanApply (ptInv tc) (ptObj tc) (ptPolicy tc)
                 = ptExpected tc)) TestCanApply_cases.

Definition TestCanPrune : bool :=
  forallb (fun tc =>
    bool_decide (CanPrune (ptInv tc) (ptObj tc) (ptPolicy tc)
                 = ptExpected tc)) TestCanPrune_cases.

End policy.

(** ** package task: the inventory-set task

    Modelled from the spec: [InvSetTask.Start] is not among the sources,
    only its table test is.  Section 4.4 gives the new inventory as a set
    expression over the previous inventory and the outcome sets of the
    [TaskContext], written through the inventory client's [Update] with
    [UpdateStatus] set.  The spec gives the set twice: as that expression,
    where failed and skipped deletes are kept as they are, and as concrete
    scenarios, where a failed delete outside the previous inventory is
    not kept.  The table test of the sources expects the scenarios (case
    "no apply objs, one prune failure, not in prev inventory; no
    inventory"), so the failed deletes are restricted to the previous
    inventory like the apply failures and skips.  Every skipped delete of
    the table and of the scenarios is in the previous inventory, so
    nothing speaks against the expression there and the skipped deletes
    are kept as section 4.4 writes them.  [specNewInventory] below is the
    expression as section 4.4 writes it, for comparison. *)

Module task.

Import taskrunner.

Record InvSetTask := {
  TaskName : string;
  PrevInventory : ObjMetadataSet
}.

(** Modelled from the spec: the set [InvSetTask.Start] computes (the
    function is not among the sources), after section 4.4 and the
    scenarios of section 8: the expression of section 4.4, with a failed
    delete kept only when the object was in the previous inventory. *)
Definition newInventory (prevInventory : gset ObjMetadata)
  (tc : TaskContext) : gset ObjMetadata :=
  (successfulApplies tc
   ∪ (prevInventory ∩ failedApplies tc)
   ∪ (prevInventory ∩ skippedApplies tc)
   ∪ (prevInventory ∩ failedDeletes tc)
   ∪ skippedDeletes tc)
  ∖ abandonedObjects tc.

(** The set expression exactly as section 4.4 writes it. *)
Definition specNewInventory (prevInventory : gset ObjMetadata)
  (tc : TaskContext) : gset ObjMetadata :=
  (successfulApplies tc
   ∪ (failedApplies tc ∩ prevInventory)
   ∪ (skippedApplies tc ∩ prevInventory)
   ∪ failedDeletes tc
   ∪ skippedDeletes tc)
  ∖ abandonedObjects tc.

(** Modelled from the spec: [InvSetTask.Start] (not among the sources)
    computes the set, writes it through the client's [Update] with
    [UpdateStatus] set and reports the outcome on the task channel. *)
Definition Start (i : InvSetTask) (tc : TaskContext)
  (client : inventory.FakeClient)
  : inventory.FakeClient * TaskResult :=
  let invObjs := elements (newInventory (list_to_set (PrevInventory i)) tc) in
  let inv := inventory.Inventory_SetObjects (inventory.Inv client) invObjs in
  let '(err, client') :=
    inventory.FakeClient_Update client inv
      {| inventory.UpdateStatus := true |} in
  (client', {| trErr := err |}).

(** *** The table of [TestInvSetTask]

    [obj1], [obj2] and [obj3] are declared in a test file that is not among
    the sources; any three objects with different ids serve. *)

Definition id1 : ObjMetadata :=
  {| Namespace := "default"; Name := "obj1";
     GK := {| Group := "apps"; Kind := "Deployment" |} |}.
Definition id2 : ObjMetadata :=
  {| Namespace := "default"; Name := "obj2";
     GK := {| Group := "apps"; Kind := "Deployment" |} |}.
Definition id3 : ObjMetadata :=
  {| Namespace := "default"; Name := "obj3";
     GK := {| Group := "apps"; Kind := "Deployment" |} |}.

Record invSetTestCase := {
  tcName : string;
  prevInventory : ObjMetadataSet;
  appliedObjs : ObjMetadataSet;
  failedApplies : ObjMetadataSet;
  failedDeletes : ObjMetadataSet;
  skippedApplies : ObjMetadataSet;
  skippedDeletes : ObjMetadataSet;
  abandonedObjs : ObjMetadataSet;
  expectedObjs : ObjMetadataSet
}.

Definition mkCase (name : string)
  (prev applied failedA failedD skippedA skippedD abandoned expected
     : ObjMetadataSet) : invSetTestCase :=
  {| tcName := name; prevInventory := prev; appliedObjs := applied;
     failedApplies := failedA; failedDeletes := failedD;
     skippedApplies := skippedA; skippedDeletes := skippedD;
     abandonedObjs := abandoned; expectedObjs := expected |}.

Definition tests : list invSetTestCase :=
  [ mkCase "no apply objs, no prune failures; no inventory"
      [] [] [] [] [] [] [] [];
    mkCase "one apply objs, no prune failures; one inventory"
      [] [id1] [] [] [] [] [] [id1];
    mkCase "no apply objs, one prune failure, in prev inventory; one inventory"
      [id1] [] [] [id1] [] [] [] [id1];
    mkCase
      "no apply objs, one prune failure, not in prev inventory; no inventory"
      [] [] [] [id1] [] [] [] [];
    mkCase "one apply objs, one prune failures; one inventory"
      [] [id3] [] [id3] [] [] [] [id3];
    mkCase "two apply objs, two prune failures; three inventory"
      [id2; id3] [id1; id2] [] [id2; id3] [] [] [] [id1; id2; id3];
    mkCase "no apply objs, no apply failures, no prune failures; no inventory"
      [] [] [id3] [] [] [] [] [];
    mkCase "one apply failure not in prev inventory; no inventory"
      [] [] [id3] [] [] [] [] [];
    mkCase
      "one apply obj, one apply failure not in prev inventory; one inventory"
      [] [id2] [id3] [] [] [] [] [id2];
    mkCase "one apply obj, one apply failure in prev inventory; one inventory"
      [id3] [id2] [id3] [] [] [] [] [id2; id3];
    mkCase
      "one apply obj, two apply failures with one in prev inventory; two inventory"
      [id3] [id2] [id1; id3] [] [] [] [] [id2; id3];
    mkCase "three apply failures with two in prev inventory; two inventory"
      [id2; id3] [] [id1; id2; id3] [] [] [] [] [id2; id3];
    mkCase
      "three apply failures with three in prev inventory; three inventory"
      [id2; id3; id1] [] [id1; id2; id3] [] [] [] [] [id2; id1; id3];
    mkCase "one skipped apply from prev inventory; one inventory"
      [id1] [] [] [] [id1] [] [] [id1];
    mkCase "one skipped apply, no prev inventory; no inventory"
      [] [] [] [] [id1] [] [] [];
    mkCase
      "one apply obj, one skipped apply, two prev inventory; two inventory"
      [id1; id2] [id2] [] [] [id1] [] [] [id1; id2];
    mkCase "one skipped delete from prev inventory; one inventory"
      [id1] [] [] [] [] [id1] [] [id1];
    mkCase
      "one apply obj, one skipped delete, two prev inventory; two inventory"
      [id1; id2] [id2] [] [] [] [id1] [] [id1; id2];
    mkCase
      "two apply obj, one abandoned, three in prev inventory; two inventory"
      [id1; id2; id3] [id1; id2] [] [] [] [] [id3] [id1; id2];
    mkCase "two abandoned, two in prev inventory; no inventory"
      [id2; id3] [] [] [] [] [] [id2; id3] [];
    mkCase
      "same obj skipped delete and abandoned, one in prev inventory; no inventory"
      [id3] [] [] [] [] [id3] [id3] [] ].

(** The context the test body builds before it starts the task. *)
Definition testContext (tc : invSetTestCase) : TaskContext :=
  let context := NewTaskContext in
  let context := foldl (fun c o => AddSuccessfulApply o c) context
                   (appliedObjs tc) in
  let context := foldl (fun c o => AddFailedApply o c) context
                   (failedApplies tc) in
  let context := foldl (fun c o => AddFailedDelete o c) context
                   (failedDeletes tc) in
  let context := foldl (fun c o => AddSkippedApply o c) context
                   (skippedApplies tc) in
  let context := foldl (fun c o => AddSkippedDelete o c) context
                   (skippedDeletes tc) in
  foldl (fun c o => AddAbandonedObject o c) context (abandonedObjs tc).

(** The body of the test: no error on the task channel, and the objects
    the client holds equal the expected ones as a set. *)
Definition runTest (tc : invSetTestCase) : bool :=
  let client := inventory.NewFakeClient [] in
  let task := {| TaskName := "test-inv-task";
                 PrevInventory := prevInventory tc |} in
  let '(client', res) := Start task (testContext tc) client in
  bool_decide (trErr res = None)
  && bool_decide (Equal (expectedObjs tc)
                    (inventory.Inventory_Objects (inventory.Inv client'))).

(** The set of objects the client holds after a run of the task that
    starts from a fresh fake client holding [objs0]. *)
Definition written (name : string) (objs0 prev : ObjMetadataSet)
  (tc : TaskContext) : gset ObjMetadata :=
  list_to_set
    (inventory.Inventory_Objects
       (inventory.Inv
          (Start {| TaskName := name; PrevInventory := prev |} tc
             (inventory.NewFakeClient objs0)).1)).

(** The context of a scenario that names its applied, failed-delete and
    abandoned objects. *)
Definition scenario (applied failedD abandoned : ObjMetadataSet)
  : TaskContext :=
  testContext (mkCase "" [] applied [] failedD [] [] abandoned []).

(** The same body with the task computing the set as section 4.4 writes
    it. *)
Definition runTestSpec (tc : invSetTestCase) : bool :=
  bool_decide
    (list_to_set (expectedObjs tc)
     = specNewInventory (list_to_set (prevInventory tc)) (testContext tc)).

End task.

(** ** The fake dynamic client of the tests

    [TestCreateOrUpdate] runs the client against the fake dynamic client
    of the Kubernetes test factory: an object tracker keyed by resource,
    namespace and name, in front of which the test puts two reactors that
    count the calls and pass them on. *)

Module fake.

Abbreviation Tracker := (gmap (string * string * string) Unstructured).

Definition key (r : dynamic.GroupVersionResource) (ns name : string)
  : string * string * string :=
  (dynamic.gvrResource r, ns, name).

Definition notFound (name : string) : error :=
  StatusError StatusReasonNotFound (name +:+ " not found").

Definition alreadyExists (name : string) : error :=
  StatusError StatusReasonAlreadyExists (name +:+ " already exists").

Definition trackerUpdate (r : dynamic.GroupVersionResource) (ns : string)
  (obj : Unstructured) (w : Tracker) : result Unstructured * Tracker :=
  match w !! key r ns (GetName obj) with
  | None => (Fail (notFound (GetName obj)), w)
  | Some _ => (Ok obj, <[key r ns (GetName obj) := obj]> w)
  end.

Definition FakeDynamicClient : dynamic.Interface Tracker :=
  {| dynamic.Get := fun r ns name w =>
       match w !! key r ns name with
       | None => Fail (notFound name)
       | Some obj => Ok obj
       end;
     dynamic.Create := fun r ns obj w =>
       match w !! key r ns (GetName obj) with
       | Some _ => (Fail (alreadyExists (GetName obj)), w)
       | None => (Ok obj, <[key r ns (GetName obj) := obj]> w)
       end;
     dynamic.Update := trackerUpdate;
     dynamic.UpdateStatus := trackerUpdate;
     dynamic.Delete := fun r ns name _ w =>
       match w !! key r ns name with
       | None => (Some (notFound name), w)
       | Some _ => (None, delete (key r ns name) w)
       end |}.

(** The counters of the two reactors of [TestCreateOrUpdate]. *)
Record CallCounts := { updateCalls : nat; createCalls : nat }.

Definition countUpdate (r : dynamic.GroupVersionResource) (k : CallCounts)
  : CallCounts :=
  if decide (dynamic.gvrResource r = "configmaps")
  then {| updateCalls := S (updateCalls k); createCalls := createCalls k |}
  else k.

Definition countCreate (r : dynamic.GroupVersionResource) (k : CallCounts)
  : CallCounts :=
  if decide (dynamic.gvrResource r = "configmaps")
  then {| updateCalls := updateCalls k; createCalls := S (createCalls k) |}
  else k.

(** [PrependReactor("update", "configmaps", ..)] and
    [PrependReactor("create", "configmaps", ..)]: each reactor counts the
    call and returns [handled = false], so the client behind answers.  A
    status update is an action of verb "update" as well. *)
Definition PrependReactors {World} (c : dynamic.Interface World)
  : dynamic.Interface (CallCounts * World) :=
  {| dynamic.Get := fun r ns name kw => dynamic.Get c r ns name kw.2;
     dynamic.Create := fun r ns obj kw =>
       let '(res, w') := dynamic.Create c r ns obj kw.2 in
       (res, (countCreate r kw.1, w'));
     dynamic.Update := fun r ns obj kw =>
       let '(res, w') := dynamic.Update c r ns obj kw.2 in
       (res, (countUpdate r kw.1, w'));
     dynamic.UpdateStatus := fun r ns obj kw =>
       let '(res, w') := dynamic.UpdateStatus c r ns obj kw.2 in
       (res, (countUpdate r kw.1, w'));
     dynamic.Delete := fun r ns name opts kw =>
       let '(res, w') := dynamic.Delete c r ns name opts kw.2 in
       (res, (kw.1, w')) |}.

Definition configmaps : dynamic.GroupVersionResource :=
  {| dynamic.gvrGroup := ""; dynamic.gvrVersion := "v1";
     dynamic.gvrResource := "configmaps" |}.

(** [NewUnstructuredClient(tf, from, to, ConfigMapGVK, statusPolicy)] over
    a dynamic client [c] behind the two counting reactors. *)
Definition counted {World} (c : dynamic.Interface World)
  (sp : inventory.StatusPolicy)
  (from : Unstructured -> result inventory.UnstructuredInventory)
  (to : inventory.UnstructuredInventory -> result Unstructured)
  : inventory.UnstructuredClient (CallCounts * World) :=
  {| inventory.client := PrependReactors c;
     inventory.resource := configmaps;
     inventory.statusPolicy := sp;
     inventory.fromUnstructured := from;
     inventory.toUnstructured := to |}.

Definition counts (u k : nat) : CallCounts :=
  {| updateCalls := u; createCalls := k |}.

(** The client of the test:
    [NewUnstructuredClient(tf, configMapToInventory, inventoryToConfigMap,
    ConfigMapGVK, StatusPolicyNone)]. *)
Definition testClient (codec : StringCodec)
  : inventory.UnstructuredClient (CallCounts * Tracker) :=
  counted FakeDynamicClient inventory.StatusPolicyNone
    (inventory.configMapToInventory codec)
    (inventory.inventoryToConfigMap codec).

(** *** The table of [TestCreateOrUpdate]

    [copyInventoryInfo] and the pod infos are declared in test files that
    are not among the sources: an inventory ConfigMap and three pod ids. *)

Definition copyInventoryInfo : Unstructured :=
  {| uGroup := ""; uKind := "ConfigMap"; uNamespace := "test-namespace";
     uName := "inventory";
     uLabels := {[ inventory.InventoryLabel := "test-inventory-id" ]};
     uAnnotations := ∅; uResourceVersion := ""; uGeneration := 0;
     uData := DataAbsent; uStatus := StatusAbsent |}.

Definition pod (name : string) : ObjMetadata :=
  {| Namespace := "test-namespace"; Name := name;
     GK := {| Group := ""; Kind := "Pod" |} |}.

Definition pod1 : ObjMetadata := pod "pod-1".
Definition pod2 : ObjMetadata := pod "pod-2".
Definition pod3 : ObjMetadata := pod "pod-3".

Record createOrUpdateCase := {
  cuName : string;
  cuInventory : option inventory.UnstructuredInventory;
  createObjs : ObjMetadataSet;
  updateObjs : ObjMetadataSet;
  isError : bool
}.

Definition freshInventory : inventory.UnstructuredInventory :=
  {| inventory.uiBase :=
       {| inventory.Objs := []; inventory.ObjStatuses := [] |};
     inventory.ClusterObj := Some copyInventoryInfo |}.

Definition createOrUpdateTests : list createOrUpdateCase :=
  [ {| cuName := "Nil local inventory object is error";
       cuInventory := None; createObjs := []; updateObjs := [];
       isError := true |};
    {| cuName := "Create and update inventory with empty object set";
       cuInventory := Some freshInventory;
       createObjs := []; updateObjs := []; isError := false |};
    {| cuName := "Create and Update inventory with identical object set";
       cuInventory := Some freshInventory;
       createObjs := [pod1]; updateObjs := [pod1]; isError := false |};
    {| cuName := "Create and Update inventory with expanding object set";
       cuInventory := Some freshInventory;
       createObjs := [pod1]; updateObjs := [pod1; pod3];
       isError := false |};
    {| cuName := "Create and Update inventory with shrinking object set";
       cuInventory := Some freshInventory;
       createObjs := [pod1; pod2; pod3]; updateObjs := [pod1; pod3];
       isError := false |} ].

Definition objectsOf (r : result inventory.Inventory) : ObjMetadataSet :=
  match r with
  | Ok inv => inventory.Inventory_Objects inv
  | Fail _ => []
  end.

Definition isOk {A} (r : result A) : bool :=
  match r with Ok _ => true | Fail _ => false end.

(** The body of the test: every [t.Fatalf] is a conjunct that must not
    fire. *)
Definition runCreateOrUpdate (codec : StringCodec)
  (tc : createOrUpdateCase) : bool :=
  let invClient := testClient codec in
  let w0 : CallCounts * Tracker :=
    ({| updateCalls := 0; createCalls := 0 |}, ∅) in
  let inv0 :=
    inventory.UnstructuredInv
      (option_map (fun ui => inventory.ui_SetObjects ui (createObjs tc))
         (cuInventory tc)) in
  let '(err, inv1, w1) :=
    inventory.Update invClient inv0 {| inventory.UpdateStatus := false |}
      w0 in
  if isError tc then bool_decide (err ≠ None)
  else
    let id := option_map inventory.ui_Info (cuInventory tc) in
    let got1 := inventory.Get invClient id w1 in
    let inv1' := inventory.Inventory_SetObjects inv1 (updateObjs tc) in
    let '(err2, inv2, w2) :=
      inventory.Update invClient inv1' {| inventory.UpdateStatus := false |}
        w1 in
    let got2 := inventory.Get invClient id w2 in
    bool_decide (err = None)
    && bool_decide (updateCalls w1.1 = 1 ∧ createCalls w1.1 = 1)
    && isOk got1
    && bool_decide (Equal (createObjs tc) (objectsOf got1))
    && bool_decide (err2 = None)
    && bool_decide (updateCalls w2.1 = 2 ∧ createCalls w2.1 = 1)
    && isOk got2
    && bool_decide (Equal (updateObjs tc) (objectsOf got2)).

Definition TestCreateOrUpdate (codec : StringCodec) : bool :=
  forallb (runCreateOrUpdate codec) createOrUpdateTests.

End fake.

(** ** package common

    Modelled from the spec: [common.DryRunStrategy] is not among the
    sources; section 4.1 names the dry-run modes [client], [server] and
    [none]. *)

Module common.

Inductive DryRunStrategy := DryRunNone | DryRunClient | DryRunServer.

Definition ClientOrServerDryRun (d : DryRunStrategy) : bool :=
  match d with
  | DryRunNone => false
  | _ => true
  end.

End common.

(** ** package list: the base list printer *)

Module printer.

Import event common.

(** Go's [int] on a 64-bit platform: [++] and [+] wrap around. *)
Definition wrap64 (z : Z) : Z := ((z + 2 ^ 63) mod 2 ^ 64 - 2 ^ 63)%Z.

Definition incr (z : Z) : Z := wrap64 (z + 1).

Definition add64 (a b : Z) : Z := wrap64 (a + b).

Module ApplyStats.
Record t := {
  ServersideApplied : Z;
  Created : Z;
  Unchanged : Z;
  Configured : Z;
  Failed : Z
}.

Definition zero : t :=
  {| ServersideApplied := 0; Created := 0; Unchanged := 0; Configured := 0;
     Failed := 0 |}.

Definition inc (a : t) (op : ApplyEventOperation) : t :=
  match op with
  | ApplyUnspecified => a
  | event.ServersideApplied =>
      {| ServersideApplied := incr (ServersideApplied a);
         Created := Created a; Unchanged := Unchanged a;
         Configured := Configured a; Failed := Failed a |}
  | event.Created =>
      {| ServersideApplied := ServersideApplied a;
         Created := incr (Created a); Unchanged := Unchanged a;
         Configured := Configured a; Failed := Failed a |}
  | event.Unchanged =>
      {| ServersideApplied := ServersideApplied a;
         Created := Created a; Unchanged := incr (Unchanged a);
         Configured := Configured a; Failed := Failed a |}
  | event.Configured =>
      {| ServersideApplied := ServersideApplied a;
         Created := Created a; Unchanged := Unchanged a;
         Configured := incr (Configured a); Failed := Failed a |}
  end.

Definition incFailed (a : t) : t :=
  {| ServersideApplied := ServersideApplied a;
     Created := Created a; Unchanged := Unchanged a;
     Configured := Configured a; Failed := incr (Failed a) |}.

Definition Sum (a : t) : Z :=
  add64 (add64 (add64 (add64 (ServersideApplied a) (Configured a))
                  (Unchanged a)) (Created a)) (Failed a).
End ApplyStats.

Module PruneStats.
Record t := { Pruned : Z; Skipped : Z; Failed : Z }.
Definition zero : t := {| Pruned := 0; Skipped := 0; Failed := 0 |}.
Definition incPruned (p : t) : t :=
  {| Pruned := incr (Pruned p); Skipped := Skipped p; Failed := Failed p |}.
Definition incSkipped (p : t) : t :=
  {| Pruned := Pruned p; Skipped := incr (Skipped p); Failed := Failed p |}.
Definition incFailed (p : t) : t :=
  {| Pruned := Pruned p; Skipped := Skipped p; Failed := incr (Failed p) |}.
End PruneStats.

Module DeleteStats.
Record t := { Deleted : Z; Skipped : Z; Failed : Z }.
Definition zero : t := {| Deleted := 0; Skipped := 0; Failed := 0 |}.
Definition incDeleted (d : t) : t :=
  {| Deleted := incr (Deleted d); Skipped := Skipped d;
     Failed := Failed d |}.
Definition incSkipped (d : t) : t :=
  {| Deleted := Deleted d; Skipped := incr (Skipped d);
     Failed := Failed d |}.
Definition incFailed (d : t) : t :=
  {| Deleted := Deleted d; Skipped := Skipped d;
     Failed := incr (Failed d) |}.
End DeleteStats.

Module WaitStats.
Record t := { Reconciled : Z; Timeout : Z; Skipped : Z }.
Definition zero : t := {| Reconciled := 0; Timeout := 0; Skipped := 0 |}.
Definition incReconciled (w : t) : t :=
  {| Reconciled := incr (Reconciled w); Timeout := Timeout w;
     Skipped := Skipped w |}.
Definition incTimeout (w : t) : t :=
  {| Reconciled := Reconciled w; Timeout := incr (Timeout w);
     Skipped := Skipped w |}.
Definition incSkipped (w : t) : t :=
  {| Reconciled := Reconciled w; Timeout := Timeout w;
     Skipped := incr (Skipped w) |}.
End WaitStats.

(** [StatusCollector]. *)
Abbreviation StatusCollector := (gmap ObjMetadata StatusEvent).

Definition updateStatus (sc : StatusCollector) (id : ObjMetadata)
  (se : StatusEvent) : StatusCollector := <[id := se]> sc.

(** The [Formatter] interface.  A formatter writes to its output, of type
    [Out], and may fail. *)
Record Formatter (Out : Type) := {
  FormatApplyEvent : ApplyEvent -> Out -> option error * Out;
  FormatStatusEvent : StatusEvent -> Out -> option error * Out;
  FormatPruneEvent : PruneEvent -> Out -> option error * Out;
  FormatDeleteEvent : DeleteEvent -> Out -> option error * Out;
  FormatWaitEvent : WaitEvent -> Out -> option error * Out;
  FormatErrorEvent : option error -> Out -> option error * Out;
  FormatActionGroupEvent :
    ActionGroupEvent -> list ActionGroup -> ApplyStats.t -> PruneStats.t ->
    DeleteStats.t -> WaitStats.t -> StatusCollector -> Out ->
    option error * Out
}.
Arguments FormatApplyEvent {Out} _ _ _.
Arguments FormatStatusEvent {Out} _ _ _.
Arguments FormatPruneEvent {Out} _ _ _.
Arguments FormatDeleteEvent {Out} _ _ _.
Arguments FormatWaitEvent {Out} _ _ _.
Arguments FormatErrorEvent {Out} _ _ _.
Arguments FormatActionGroupEvent {Out} _ _ _ _ _ _ _ _ _.

Record BaseListPrinter (Out : Type) := {
  FormatterFactory : DryRunStrategy -> Formatter Out
}.
Arguments FormatterFactory {Out} _ _.

(** The local variables of [Print]. *)
Record locals (Out : Type) := {
  actionGroups : list ActionGroup;
  applyStats : ApplyStats.t;
  pruneStats : PruneStats.t;
  deleteStats : DeleteStats.t;
  waitStats : WaitStats.t;
  statusCollector : StatusCollector;
  out : Out
}.
Arguments actionGroups {Out} _.
Arguments applyStats {Out} _.
Arguments pruneStats {Out} _.
Arguments deleteStats {Out} _.
Arguments waitStats {Out} _.
Arguments statusCollector {Out} _.
Arguments out {Out} _.

(** One turn of the loop either goes on or returns from [Print]. *)
Inductive turn (Out : Type) :=
| Continue (l : locals Out)
| Return (err : option error) (o : Out).
Arguments Continue {Out} l.
Arguments Return {Out} err o.

(** [if err := format(..); err != nil { return err }]. *)
Definition checked {Out} (r : option error * Out) (k : Out -> locals Out)
  : turn Out :=
  match r with
  | (Some err, o) => Return (Some err) o
  | (None, o) => Continue (k o)
  end.

(** The body of [for e := range ch]. *)
Definition handle {Out} (formatter : Formatter Out) (printStatus : bool)
  (l : locals Out) (e : Event) : turn Out :=
  match e with
  | InitType ags =>
      Continue
        {| actionGroups := ags; applyStats := applyStats l;
           pruneStats := pruneStats l; deleteStats := deleteStats l;
           waitStats := waitStats l; statusCollector := statusCollector l;
           out := out l |}
  | ErrorType err =>
      Return err (FormatErrorEvent formatter err (out l)).2
  | ApplyType ae =>
      let applyStats1 := ApplyStats.inc (applyStats l) (aeOperation ae) in
      let applyStats2 :=
        match aeError ae with
        | Some _ => ApplyStats.incFailed applyStats1
        | None => applyStats1
        end in
      checked (FormatApplyEvent formatter ae (out l)) (fun o =>
        {| actionGroups := actionGroups l; applyStats := applyStats2;
           pruneStats := pruneStats l; deleteStats := deleteStats l;
           waitStats := waitStats l; statusCollector := statusCollector l;
           out := o |})
  | StatusType se =>
      let sc := updateStatus (statusCollector l) (seIdentifier se) se in
      let next o :=
        {| actionGroups := actionGroups l; applyStats := applyStats l;
           pruneStats := pruneStats l; deleteStats := deleteStats l;
           waitStats := waitStats l; statusCollector := sc; out := o |} in
      if printStatus
      then checked (FormatStatusEvent formatter se (out l)) next
      else Continue (next (out l))
  | PruneType pe =>
      let pruneStats1 :=
        match peOperation pe with
        | Pruned => PruneStats.incPruned (pruneStats l)
        | PruneSkipped => PruneStats.incSkipped (pruneStats l)
        | _ => pruneStats l
        end in
      let pruneStats2 :=
        match peError pe with
        | Some _ => PruneStats.incFailed pruneStats1
        | None => pruneStats1
        end in
      checked (FormatPruneEvent formatter pe (out l)) (fun o =>
        {| actionGroups := actionGroups l; applyStats := applyStats l;
           pruneStats := pruneStats2; deleteStats := deleteStats l;
           waitStats := waitStats l; statusCollector := statusCollector l;
           out := o |})
  | DeleteType de =>
      let deleteStats1 :=
        match deOperation de with
        | Deleted => DeleteStats.incDeleted (deleteStats l)
        | DeleteSkipped => DeleteStats.incSkipped (deleteStats l)
        | _ => deleteStats l
        end in
      let deleteStats2 :=
        match deError de with
        | Some _ => DeleteStats.incFailed deleteStats1
        | None => deleteStats1
        end in
      checked (FormatDeleteEvent formatter de (out l)) (fun o =>
        {| actionGroups := actionGroups l; applyStats := applyStats l;
           pruneStats := pruneStats l; deleteStats := deleteStats2;
           waitStats := waitStats l; statusCollector := statusCollector l;
           out := o |})
  | WaitType we =>
      let waitStats1 :=
        match weOperation we with
        | Reconciled => WaitStats.incReconciled (waitStats l)
        | ReconcileSkipped => WaitStats.incSkipped (waitStats l)
        | ReconcileTimeout => WaitStats.incTimeout (waitStats l)
        | _ => waitStats l
        end in
      checked (FormatWaitEvent formatter we (out l)) (fun o =>
        {| actionGroups := actionGroups l; applyStats := applyStats l;
           pruneStats := pruneStats l; deleteStats := deleteStats l;
           waitStats := waitStats1; statusCollector := statusCollector l;
           out := o |})
  | ActionGroupType age =>
      checked
        (FormatActionGroupEvent formatter age (actionGroups l)
           (applyStats l) (pruneStats l) (deleteStats l) (waitStats l)
           (statusCollector l) (out l))
        (fun o =>
           {| actionGroups := actionGroups l; applyStats := applyStats l;
              pruneStats := pruneStats l; deleteStats := deleteStats l;
              waitStats := waitStats l;
              statusCollector := statusCollector l; out := o |})
  end.

(** [for e := range ch]: the channel is the list of the events sent on it
    before it is closed. *)
Fixpoint rangeOver {Out} (formatter : Formatter Out) (printStatus : bool)
  (ch : list Event) (l : locals Out) : turn Out :=
  match ch with
  | [] => Continue l
  | e :: rest =>
      match handle formatter printStatus l e with
      | Continue l' => rangeOver formatter printStatus rest l'
      | Return err o => Return err o
      end
  end.

(** [fmt.Errorf] with its [%d] verbs written out. *)
Definition bothFailed (failedSum timeout : Z) : error :=
  Errorf (pretty failedSum +:+ " resources failed, " +:+ pretty timeout
          +:+ " resources failed to reconcile before timeout").

Definition someFailed (failedSum : Z) : error :=
  Errorf (pretty failedSum +:+ " resources failed").

Definition someTimedOut (timeout : Z) : error :=
  Errorf (pretty timeout
          +:+ " resources failed to reconcile before timeout").

(** The [switch] that ends [Print]. *)
Definition summary (failedSum timeout : Z) : option error :=
  if bool_decide (failedSum > 0)%Z && bool_decide (timeout > 0)%Z
  then Some (bothFailed failedSum timeout)
  else if bool_decide (failedSum > 0)%Z then Some (someFailed failedSum)
  else if bool_decide (timeout > 0)%Z then Some (someTimedOut timeout)
  else None.

(** The locals as [Print] declares them. *)
Definition initial {Out} (o : Out) : locals Out :=
  {| actionGroups := []; applyStats := ApplyStats.zero;
     pruneStats := PruneStats.zero; deleteStats := DeleteStats.zero;
     waitStats := WaitStats.zero; statusCollector := ∅; out := o |}.

Definition Print {Out} (b : BaseListPrinter Out) (ch : list Event)
  (previewStrategy : DryRunStrategy) (printStatus : bool) (o : Out)
  : option error * Out :=
  let formatter := FormatterFactory b previewStrategy in
  match rangeOver formatter printStatus ch (initial o) with
  | Return err o' => (err, o')
  | Continue l =>
      let failedSum :=
        add64 (add64 (ApplyStats.Failed (applyStats l))
                 (PruneStats.Failed (pruneStats l)))
          (DeleteStats.Failed (deleteStats l)) in
      (summary failedSum (WaitStats.Timeout (waitStats l)), out l)
  end.

(** *** What the events of a channel add up to *)

Definition failedEvent (e : Event) : bool :=
  match e with
  | ApplyType ae => bool_decide (aeError ae ≠ None)
  | PruneType pe => bool_decide (peError pe ≠ None)
  | DeleteType de => bool_decide (deError de ≠ None)
  | _ => false
  end.

Definition timeoutEvent (e : Event) : bool :=
  match e with
  | WaitType we =>
      match weOperation we with ReconcileTimeout => true | _ => false end
  | _ => false
  end.

Definition countEvents (p : Event -> bool) (ch : list Event) : Z :=
  Z.of_nat (length (filter (fun e => p e = true) ch)).

(** [Print] reaches its final [switch]: no event of the channel makes the
    loop return. *)
Definition reachesSummary {Out} (b : BaseListPrinter Out) (ch : list Event)
  (previewStrategy : DryRunStrategy) (printStatus : bool) (o : Out)
  : Prop :=
  ∃ l, rangeOver (FormatterFactory b previewStrategy) printStatus ch
         (initial o) = Continue l.

(** The sum of the three failure counters and the timeout counter, as
    integers. *)
Definition failures {Out} (l : locals Out) : Z :=
  (ApplyStats.Failed (applyStats l) + PruneStats.Failed (pruneStats l)
   + DeleteStats.Failed (deleteStats l))%Z.

Definition timeouts {Out} (l : locals Out) : Z :=
  WaitStats.Timeout (waitStats l).

Definition nonneg {Out} (l : locals Out) : Prop :=
  (0 <= ApplyStats.Failed (applyStats l)
   ∧ 0 <= PruneStats.Failed (pruneStats l)
   ∧ 0 <= DeleteStats.Failed (deleteStats l)
   ∧ 0 <= timeouts l)%Z.

Definition bit (b : bool) : Z := if b then 1%Z else 0%Z.

(** A formatter that prints nothing and never fails. *)
Definition quietFormatter : Formatter unit :=
  {| FormatApplyEvent := fun _ o => (None, o);
     FormatStatusEvent := fun _ o => (None, o);
     FormatPruneEvent := fun _ o => (None, o);
     FormatDeleteEvent := fun _ o => (None, o);
     FormatWaitEvent := fun _ o => (None, o);
     FormatErrorEvent := fun _ o => (None, o);
     FormatActionGroupEvent := fun _ _ _ _ _ _ _ o => (None, o) |}.

Definition quietPrinter : BaseListPrinter unit :=
  {| FormatterFactory := fun _ => quietFormatter |}.

Definition sampleFailure : event.Event :=
  ApplyType
    {| aeIdentifier :=
         {| Namespace := "default"; Name := "obj1";
            GK := {| Group := "apps"; Kind := "Deployment" |} |};
       aeOperation := ApplyUnspecified;
       aeError := Some (Errorf "conflict") |}.

Definition sampleTimeout : event.Event :=
  WaitType
    {| weIdentifier :=
         {| Namespace := "default"; Name := "obj2";
            GK := {| Group := "apps"; Kind := "Deployment" |} |};
       weOperation := ReconcileTimeout |}.

End printer.

(** ** package filter

    The [ValidationFilter] interface is not among the sources; the pruner
    calls its two methods.  A filter may hold a pointer to the task context
    and a client, so its verdict may depend on both. *)

Module filter.

Record ValidationFilter (World : Type) := {
  Name : string;
  Filter : taskrunner.TaskContext -> World -> Unstructured ->
           bool * string * option error
}.
Arguments Name {World} _.
Arguments Filter {World} _ _ _ _.

Definition PreventRemoveFilterName : string := "PreventRemoveFilter".

End filter.

(** ** package prune *)

Module prune.

Import taskrunner.

(** [meta.RESTMapper], read through [RESTMapping(groupKind)]. *)
Record RESTMapper := {
  RESTMapping : GroupKind -> result dynamic.GroupVersionResource
}.

(** The function of [inventory.InventoryClient] the pruner calls. *)
Record InventoryClient (World : Type) := {
  GetClusterObjs : policy.InventoryInfo -> common.DryRunStrategy -> World ->
                   result ObjMetadataSet
}.
Arguments GetClusterObjs {World} _ _ _ _.

(** The functions of the packages [object] and [ordering] that the pruner
    calls and that are not among the sources: the set difference of two id
    sets, whose result comes in the order of a map range, and the [Less]
    of [ordering.SortableUnstructureds], the order objects are applied
    in. *)
Record Externals := {
  Diff : ObjMetadataSet -> ObjMetadataSet -> ObjMetadataSet;
  Less : ObjMetadata -> ObjMetadata -> bool
}.

Record Pruner (World : Type) := {
  InvClient : InventoryClient World;
  Client : dynamic.Interface World;
  Mapper : RESTMapper;
  ext : Externals
}.
Arguments InvClient {World} _.
Arguments Client {World} _.
Arguments Mapper {World} _.
Arguments ext {World} _.

Record Options := {
  DryRunStrategy : common.DryRunStrategy;
  PropagationPolicy : dynamic.DeletionPropagation;
  Destroy : bool
}.

(** *** The event factory

    Modelled from the spec: [CreateEventFactory] is not among the sources.
    Section 6 gives prune events the operations [Pruned] and
    [PruneSkipped] and delete events [Deleted] and [DeleteSkipped]; a
    destroy run reports delete events, any other run prune events.  A
    failed event carries the id and the error, a skipped event the object
    and the reason, a success event the object. *)

Record EventFactory := { isDelete : bool; groupName : string }.

Definition CreateEventFactory (isDelete : bool) (groupName : string)
  : EventFactory :=
  {| isDelete := isDelete; groupName := groupName |}.

Definition CreateSuccessEvent (ef : EventFactory) (obj : Unstructured)
  : event.Event :=
  if isDelete ef then
    event.DeleteType
      {| event.deGroupName := groupName ef;
         event.deIdentifier := UnstructuredToObjMetaOrDie obj;
         event.deOperation := event.Deleted;
         event.deObject := Some obj; event.deReason := "";
         event.deError := None |}
  else
    event.PruneType
      {| event.peGroupName := groupName ef;
         event.peIdentifier := UnstructuredToObjMetaOrDie obj;
         event.peOperation := event.Pruned;
         event.peObject := Some obj; event.peReason := "";
         event.peError := None |}.

Definition CreateSkippedEvent (ef : EventFactory) (obj : Unstructured)
  (reason : string) : event.Event :=
  if isDelete ef then
    event.DeleteType
      {| event.deGroupName := groupName ef;
         event.deIdentifier := UnstructuredToObjMetaOrDie obj;
         event.deOperation := event.DeleteSkipped;
         event.deObject := Some obj; event.deReason := reason;
         event.deError := None |}
  else
    event.PruneType
      {| event.peGroupName := groupName ef;
         event.peIdentifier := UnstructuredToObjMetaOrDie obj;
         event.peOperation := event.PruneSkipped;
         event.peObject := Some obj; event.peReason := reason;
         event.peError := None |}.

Definition CreateFailedEvent (ef : EventFactory) (id : ObjMetadata)
  (err : error) : event.Event :=
  if isDelete ef then
    event.DeleteType
      {| event.deGroupName := groupName ef; event.deIdentifier := id;
         event.deOperation := event.DeleteUnspecified;
         event.deObject := None; event.deReason := "";
         event.deError := Some err |}
  else
    event.PruneType
      {| event.peGroupName := groupName ef; event.peIdentifier := id;
         event.peOperation := event.PruneUnspecified;
         event.peObject := None; event.peReason := "";
         event.peError := Some err |}.

(** *** The pruner *)

(** [namespacedClient]: the resource and the namespace the client is
    bound to. *)
Definition namespacedClient {World} (p : Pruner World) (id : ObjMetadata)
  : result (dynamic.GroupVersionResource * string) :=
  match RESTMapping (Mapper p) (GK id) with
  | Fail err => Fail err
  | Ok resource => Ok (resource, Namespace id)
  end.

Definition getObject {World} (p : Pruner World) (id : ObjMetadata)
  (w : World) : result Unstructured :=
  match namespacedClient p id with
  | Fail err => Fail err
  | Ok (resource, ns) => dynamic.Get (Client p) resource ns (Name id) w
  end.

Definition deleteObject {World} (p : Pruner World) (id : ObjMetadata)
  (opts : dynamic.DeleteOptions) (w : World) : option error * World :=
  match namespacedClient p id with
  | Fail err => (Some err, w)
  | Ok (resource, ns) =>
      dynamic.Delete (Client p) resource ns (Name id) opts w
  end.

Definition errorOf {A} (r : result A) : option error :=
  match r with
  | Ok _ => None
  | Fail err => Some err
  end.

(** [removeInventoryAnnotation]: the copy of the object, the error and
    the next world. *)
Definition removeInventoryAnnotation {World} (p : Pruner World)
  (obj : Unstructured) (w : World)
  : Unstructured * option error * World :=
  let id := UnstructuredToObjMetaOrDie obj in
  let annotations := GetAnnotations obj in
  match annotations !! inventory.OwningInventoryKey with
  | Some _ =>
      let annotations := delete inventory.OwningInventoryKey annotations in
      let obj := SetAnnotations obj annotations in
      match namespacedClient p id with
      | Fail err => (obj, Some err, w)
      | Ok (resource, ns) =>
          let '(res, w') := dynamic.Update (Client p) resource ns obj w in
          (obj, errorOf res, w')
      end
  | None => (obj, None, w)
  end.

(** The variables of the loop body of [Prune] that the filter loop
    assigns, with the task context and the world. *)
Record filtering (World : Type) := {
  obj_ : Unstructured;
  filtered : bool;
  reason : string;
  err_ : option error;
  taskContext : TaskContext;
  world : World
}.
Arguments obj_ {World} _.
Arguments filtered {World} _.
Arguments reason {World} _.
Arguments err_ {World} _.
Arguments taskContext {World} _.
Arguments world {World} _.

(** [for _, pruneFilter := range pruneFilters]: each arm that ends in
    [break] returns, the fall-through goes on with the next filter. *)
Fixpoint filterLoop {World} (p : Pruner World) (opts : Options)
  (eventFactory : EventFactory) (id : ObjMetadata)
  (pruneFilters : list (filter.ValidationFilter World))
  (v : filtering World) : filtering World :=
  match pruneFilters with
  | [] => v
  | pruneFilter :: rest =>
      let '(filtered, reason, err) :=
        filter.Filter pruneFilter (taskContext v) (world v) (obj_ v) in
      match err with
      | Some e =>
          let tc := SendEvent (CreateFailedEvent eventFactory id e)
                      (taskContext v) in
          let tc := AddFailedDelete id tc in
          {| obj_ := obj_ v; filtered := filtered; reason := reason;
             err_ := err; taskContext := tc; world := world v |}
      | None =>
          if filtered then
            let skip (obj : Unstructured) (tc : TaskContext) (w : World) :=
              let tc := SendEvent (CreateSkippedEvent eventFactory obj reason)
                          tc in
              let tc := AddSkippedDelete id tc in
              {| obj_ := obj; filtered := filtered; reason := reason;
                 err_ := None; taskContext := tc; world := w |} in
            if decide (filter.Name pruneFilter
                       = filter.PreventRemoveFilterName) then
              if negb (common.ClientOrServerDryRun (DryRunStrategy opts)) then
                let '(obj, err, w) :=
                  removeInventoryAnnotation p (obj_ v) (world v) in
                match err with
                | Some e =>
                    let tc := SendEvent (CreateFailedEvent eventFactory id e)
                                (taskContext v) in
                    let tc := AddFailedDelete id tc in
                    {| obj_ := obj; filtered := filtered; reason := reason;
                       err_ := err; taskContext := tc; world := w |}
                | None =>
                    skip obj (AddAbandonedObject id (taskContext v)) w
                end
              else skip (obj_ v) (taskContext v) (world v)
            else skip (obj_ v) (taskContext v) (world v)
          else
            filterLoop p opts eventFactory id rest
              {| obj_ := obj_ v; filtered := filtered; reason := reason;
                 err_ := err; taskContext := taskContext v;
                 world := world v |}
      end
  end.

(** The body of [for _, obj := range objs]. *)
Definition pruneObject {World} (p : Pruner World)
  (pruneFilters : list (filter.ValidationFilter World))
  (eventFactory : EventFactory) (opts : Options)
  (st : TaskContext * World) (obj : Unstructured) : TaskContext * World :=
  let id := UnstructuredToObjMetaOrDie obj in
  let v := filterLoop p opts eventFactory id pruneFilters
             {| obj_ := obj; filtered := false; reason := "";
                err_ := None; taskContext := st.1; world := st.2 |} in
  if filtered v || bool_decide (err_ v ≠ None) then
    (taskContext v, world v)
  else if negb (common.ClientOrServerDryRun (DryRunStrategy opts)) then
    let '(err, w) :=
      deleteObject p id
        {| dynamic.PropagationPolicy := Some (PropagationPolicy opts) |}
        (world v) in
    match err with
    | Some e =>
        let tc := SendEvent (CreateFailedEvent eventFactory id e)
                    (taskContext v) in
        (AddFailedDelete id tc, w)
    | None =>
        (SendEvent (CreateSuccessEvent eventFactory (obj_ v))
           (taskContext v), w)
    end
  else
    (SendEvent (CreateSuccessEvent eventFactory (obj_ v)) (taskContext v),
     world v).

(** [Prune]: the error it returns, and the task context and the world as
    it leaves them. *)
Definition Prune {World} (p : Pruner World) (objs : list Unstructured)
  (pruneFilters : list (filter.ValidationFilter World))
  (taskContext : TaskContext) (taskName : string) (opts : Options)
  (w : World) : option error * TaskContext * World :=
  let eventFactory := CreateEventFactory (Destroy opts) taskName in
  let st := foldl (pruneObject p pruneFilters eventFactory opts)
              (taskContext, w) objs in
  (None, st.1, st.2).

(** The loop of [GetPruneObjs] over the ids to prune. *)
Fixpoint getObjects {World} (p : Pruner World) (ids : ObjMetadataSet)
  (objs : list Unstructured) (w : World) : result (list Unstructured) :=
  match ids with
  | [] => Ok objs
  | id :: rest =>
      match getObject p id w with
      | Fail err =>
          if IsNoMatchError (Some err) then getObjects p rest objs w
          else if IsNotFound (Some err) then getObjects p rest objs w
          else Fail err
      | Ok pruneObj => getObjects p rest (objs ++ [pruneObj]) w
      end
  end.

(** [sort.Reverse(ordering.SortableUnstructureds(objs))]: its [Less(i, j)]
    is the [Less(j, i)] of the apply order, so a sorted slice never has an
    object before one that is applied after it. *)
Definition notAppliedBefore (e : Externals) (a b : Unstructured) : Prop :=
  Less e (UnstructuredToObjMetaOrDie a) (UnstructuredToObjMetaOrDie b)
  = false.

#[global] Instance notAppliedBefore_dec e a b :
  Decision (notAppliedBefore e a b).
Proof. unfold notAppliedBefore. apply _. Defined.

Definition sortReverse (e : Externals) (objs : list Unstructured)
  : list Unstructured :=
  merge_sort (notAppliedBefore e) objs.

Definition GetPruneObjs {World} (p : Pruner World)
  (inv : policy.InventoryInfo) (objs : list Unstructured) (opts : Options)
  (w : World) : result (list Unstructured) :=
  let ids := UnstructuredsToObjMetasOrDie objs in
  match GetClusterObjs (InvClient p) inv (DryRunStrategy opts) w with
  | Fail err => Fail err
  | Ok invIDs =>
      let ids := Diff (ext p) invIDs ids in
      match getObjects p ids [] w with
      | Fail err => Fail err
      | Ok objs => Ok (sortReverse (ext p) objs)
      end
  end.

(** A filter lets the object through: it neither blocks nor fails. *)
Definition passes {World} (tc : TaskContext) (w : World)
  (obj : Unstructured) (f : filter.ValidationFilter World) : Prop :=
  ∃ r, filter.Filter f tc w obj = (false, r, None).

(** The three ways the pruning of one object fails with an error: a
    filter returns it, the removal of the owner annotation returns it, or
    the delete returns it. *)
Inductive failsWith {World} (p : Pruner World)
  (pruneFilters : list (filter.ValidationFilter World)) (opts : Options)
  (tc : TaskContext) (w : World) (obj : Unstructured) : error -> Prop :=
| filterError pre f post fl r e :
    pruneFilters = pre ++ f :: post ->
    Forall (passes tc w obj) pre ->
    filter.Filter f tc w obj = (fl, r, Some e) ->
    failsWith p pruneFilters opts tc w obj e
| annotationError pre f post r obj' e w' :
    pruneFilters = pre ++ f :: post ->
    Forall (passes tc w obj) pre ->
    filter.Filter f tc w obj = (true, r, None) ->
    filter.Name f = filter.PreventRemoveFilterName ->
    common.ClientOrServerDryRun (DryRunStrategy opts) = false ->
    removeInventoryAnnotation p obj w = (obj', Some e, w') ->
    failsWith p pruneFilters opts tc w obj e
| deleteError e w' :
    Forall (passes tc w obj) pruneFilters ->
    common.ClientOrServerDryRun (DryRunStrategy opts) = false ->
    deleteObject p (UnstructuredToObjMetaOrDie obj)
      {| dynamic.PropagationPolicy := Some (PropagationPolicy opts) |} w
    = (Some e, w') ->
    failsWith p pruneFilters opts tc w obj e.

(** A later task context keeps what an earlier one recorded: the failed
    deletes stay and the events sent stay at the front of the channel. *)
Definition keeps (tc tc' : TaskContext) : Prop :=
  failedDeletes tc ⊆ failedDeletes tc'
  ∧ eventChannel tc `prefix_of` eventChannel tc'.

(** The objects the fetch of [ids] finds, in the order of [ids]. *)
Definition liveObjects {World} (p : Pruner World) (w : World)
  (ids : ObjMetadataSet) : list Unstructured :=
  omap (fun id => match getObject p id w with
                  | Ok o => Some o
                  | Fail _ => None
                  end) ids.

(** The fetch errors [GetPruneObjs] passes over. *)
Definition passedOver (err : error) : bool :=
  IsNoMatchError (Some err) || IsNotFound (Some err).

End prune.

(** ** A pruner over the fake dynamic client

    A small cluster for the examples: two of the three pods of the
    inventory exist in the cluster, and the kind of a fourth inventory
    object is not registered. *)

Module prunetest.

Import prune.

Definition pods : dynamic.GroupVersionResource :=
  {| dynamic.gvrGroup := ""; dynamic.gvrVersion := "v1";
     dynamic.gvrResource := "pods" |}.

Definition testMapper : RESTMapper :=
  {| RESTMapping := fun gk =>
       if decide (Kind gk = "Pod") then Ok pods
       else if decide (Kind gk = "ConfigMap") then Ok fake.configmaps
       else Fail (NoKindMatchError ("no matches for kind " +:+ Kind gk)) |}.

(** An order of the ids for the examples: the order of their codes. *)
Definition codeLess (a b : ObjMetadata) : bool :=
  bool_decide (encode a < encode b)%positive.

Definition testExternals : Externals :=
  {| Diff := fun a b => remove_dups (list_difference a b);
     Less := codeLess |}.

Definition widget : ObjMetadata :=
  {| Namespace := "test-namespace"; Name := "w1";
     GK := {| Group := "example.com"; Kind := "Widget" |} |}.

Definition clusterInventory : ObjMetadataSet :=
  [fake.pod1; fake.pod2; fake.pod3; widget].

Definition testPruner : Pruner fake.Tracker :=
  {| InvClient := {| GetClusterObjs := fun _ _ _ => Ok clusterInventory |};
     Client := fake.FakeDynamicClient;
     Mapper := testMapper;
     ext := testExternals |}.

Definition podObject (name : string) (annotations : gmap string string)
  : Unstructured :=
  {| uGroup := ""; uKind := "Pod"; uNamespace := "test-namespace";
     uName := name; uLabels := ∅; uAnnotations := annotations;
     uResourceVersion := "1"; uGeneration := 1; uData := DataAbsent;
     uStatus := StatusAbsent |}.

Definition owned : gmap string string :=
  {[ inventory.OwningInventoryKey := "test-inventory-id" ]}.

(** The cluster holds pod-1 and pod-3; pod-2 is gone. *)
Definition cluster : fake.Tracker :=
  {[ fake.key pods "test-namespace" "pod-1" := podObject "pod-1" owned;
     fake.key pods "test-namespace" "pod-3" := podObject "pod-3" owned ]}.

Definition testOptions : Options :=
  {| DryRunStrategy := common.DryRunNone;
     PropagationPolicy := dynamic.DeletePropagationBackground;
     Destroy := false |}.

Definition testInventory : policy.InventoryInfo :=
  {| policy.ID := "test-inventory-id" |}.

(** A filter that lets every object through, and one with the name of the
    prevent-remove filter that blocks every object. *)
Definition passFilter : filter.ValidationFilter fake.Tracker :=
  {| filter.Name := "PassFilter";
     filter.Filter := fun _ _ _ => (false, "", None) |}.

Definition blockFilter : filter.ValidationFilter fake.Tracker :=
  {| filter.Name := filter.PreventRemoveFilterName;
     filter.Filter := fun _ _ _ =>
       (true, "object has the prevent-removal annotation", None) |}.

Definition pruneEvents : EventFactory := CreateEventFactory false "prune-0".

End prunetest.

(** ** The rest of the fake inventory client *)

Module fakeinv.

Import inventory.

(** [Delete] returns the forced error, if any, and does nothing else. *)
Definition FakeClient_Delete (fic : FakeClient) : option error :=
  match Err fic with
  | Some e => Some e
  | None => None
  end.

(** [List] returns [nil, nil], also when an error is forced. *)
Definition FakeClient_List (fic : FakeClient) : result (list Inventory) :=
  Ok [].

End fakeinv.

(** ** The rest of the client over one unstructured object *)

Module invclient.

Import inventory.

(** [Delete]: the remote delete is called with empty options; its
    not-found answer is success. *)
Definition Delete {World} (cic : UnstructuredClient World)
  (id : option Info) (w : World) : option error * World :=
  match id with
  | None => (Some (Errorf "id is nil"), w)
  | Some id =>
      let '(err, w') :=
        dynamic.Delete (client cic) (resource cic) (infoNamespace id)
          (infoName id) {| dynamic.PropagationPolicy := None |} w in
      if bool_decide (err ≠ None) && negb (IsNotFound err)
      then (err, w')
      else (None, w')
  end.

(** The loop of [List] over the items: each item is decoded and appended,
    and the first decoding error ends the loop.  Every iteration has its
    own loop variable (the module is built with a Go release after 1.22),
    so the address taken of it is that of the item. *)
Fixpoint decodeItems {World} (cic : UnstructuredClient World)
  (items : list Unstructured) (inventories : list Inventory)
  : result (list Inventory) :=
  match items with
  | [] => Ok inventories
  | obj :: rest =>
      match fromUnstructured cic obj with
      | Fail err => Fail err
      | Ok uInv =>
          decodeItems cic rest (inventories ++ [UnstructuredInv (Some uInv)])
      end
  end.

(** [List]: [cic.client.List(ctx, ListOptions{})] lists the resource over
    all namespaces; the remote call is the parameter [remoteList]. *)
Definition List {World} (cic : UnstructuredClient World)
  (remoteList : World -> result (list Unstructured)) (w : World)
  : result (list Inventory) :=
  match remoteList w with
  | Fail err => Fail err
  | Ok items => decodeItems cic items []
  end.

(** The decoded form of one item of a list. *)
Definition decoded {World} (cic : UnstructuredClient World)
  (obj : Unstructured) (inv : Inventory) : Prop :=
  ∃ uInv, fromUnstructured cic obj = Ok uInv
          ∧ inv = UnstructuredInv (Some uInv).

End invclient.

(** ** Reading the ConfigMap codec *)

Module configmap.

Import inventory.

(** The last status of [statuses] that refers to [o]. *)
Definition statusOf (o : ObjMetadata)
  (statuses : list actuation.ObjectStatus) : option actuation.ObjectStatus :=
  last (filter (fun st => ObjMetadataFromObjectReference
                            (actuation.osObjectReference st) = o) statuses).

(** The value [buildObjMap] stores for an object with that status. *)
Definition valueOf (st : option actuation.ObjectStatus) : string :=
  match st with
  | Some status => stringFrom status
  | None => ""
  end.

End configmap.

(** ** Action groups of the list printer *)

Module actiongroup.

Import event.

#[global] Instance ResourceAction_eq_dec : EqDecision ResourceAction.
Proof. solve_decision. Defined.

(** [event.ActionGroup{}], the zero value. *)
Definition zeroActionGroup : ActionGroup :=
  {| agName := ""; agAction := ApplyAction |}.

Fixpoint ActionGroupByName (name : string) (ags : list ActionGroup)
  : ActionGroup * bool :=
  match ags with
  | [] => (zeroActionGroup, false)
  | ag :: rest =>
      if decide (agName ag = name) then (ag, true)
      else ActionGroupByName name rest
  end.

(** The loop of [IsLastActionGroup] with its two variables. *)
Fixpoint isLastLoop (age : ActionGroupEvent) (ags : list ActionGroup)
  (found : bool) (action : ResourceAction) : bool :=
  match ags with
  | [] => true
  | ag :: rest =>
      if found && bool_decide (action = agAction ag) then false
      else if decide (ageGroupName age = agName ag)
           then isLastLoop age rest true (ageAction age)
           else isLastLoop age rest found action
  end.

Definition IsLastActionGroup (age : ActionGroupEvent)
  (ags : list ActionGroup) : bool :=
  isLastLoop age ags false ApplyAction.

End actiongroup.

(** ** More fixtures over the fake dynamic client *)

Module fixtures.

(** A remote store that answers every update with a conflict. *)
Definition conflict : error :=
  StatusError StatusReasonConflict "the object has been modified".

Definition conflictClient : dynamic.Interface fake.Tracker :=
  {| dynamic.Get := dynamic.Get fake.FakeDynamicClient;
     dynamic.Create := dynamic.Create fake.FakeDynamicClient;
     dynamic.Update := fun _ _ _ w => (Fail conflict, w);
     dynamic.UpdateStatus := fun _ _ _ w => (Fail conflict, w);
     dynamic.Delete := dynamic.Delete fake.FakeDynamicClient |}.

(** An inventory record without cluster object. *)
Definition detached : inventory.UnstructuredInventory :=
  {| inventory.uiBase :=
       {| inventory.Objs := [fake.pod1]; inventory.ObjStatuses := [] |};
     inventory.ClusterObj := None |}.

(** An inventory ConfigMap that reports an observed generation, and the
    store that holds it. *)
Definition observed : Unstructured :=
  {| uGroup := ""; uKind := "ConfigMap"; uNamespace := "test-namespace";
     uName := "inventory";
     uLabels := {[ inventory.InventoryLabel := "test-inventory-id" ]};
     uAnnotations := ∅; uResourceVersion := "7"; uGeneration := 3;
     uData := DataAbsent; uStatus := StatusMap (OGInt 2) |}.

Definition observedInventory : inventory.UnstructuredInventory :=
  {| inventory.uiBase :=
       {| inventory.Objs := [fake.pod1]; inventory.ObjStatuses := [] |};
     inventory.ClusterObj := Some observed |}.

Definition observedStore : fake.Tracker :=
  {[ fake.key fake.configmaps "test-namespace" "inventory" := observed ]}.

Definition withStatus : inventory.UpdateOptions :=
  {| inventory.UpdateStatus := true |}.

(** [podStatus] of inventory-client_test.go: a succeeded apply. *)
Definition podStatus (o : ObjMetadata) : actuation.ObjectStatus :=
  {| actuation.osObjectReference :=
       {| actuation.orGroup := Group (GK o); actuation.orKind := Kind (GK o);
          actuation.orNamespace := Namespace o;
          actuation.orName := Name o |};
     actuation.Strategy := actuation.ActuationStrategyApply;
     actuation.Actuation := actuation.ActuationSucceeded;
     actuation.Reconcile := actuation.ReconcileSucceeded |}.

(** An inventory ConfigMap that stores pod-1 with some status value. *)
Definition stored : Unstructured :=
  SetData fake.copyInventoryInfo
    (DataStringMap {[ canonicalString fake.pod1 := "{}" ]}).

Definition createdEvent : event.Event :=
  event.ApplyType
    {| event.aeIdentifier := fake.pod1;
       event.aeOperation := event.Created;
       event.aeError := None |}.

Definition prunedEvent : event.Event :=
  prune.CreateSuccessEvent (prune.CreateEventFactory false "prune-0")
    (prunetest.podObject "pod-3" prunetest.owned).

Definition dryRunOptions : prune.Options :=
  {| prune.DryRunStrategy := common.DryRunClient;
     prune.PropagationPolicy := dynamic.DeletePropagationBackground;
     prune.Destroy := false |}.

End fixtures.

(** ** What the pruning of one object leaves in the task context *)

Module outcome.

Import taskrunner.

(** The four shapes the task context can have after the loop body of
    [Prune] has run for the object [id]: a failed delete with its event, a
    skipped delete with its event, an abandoned object that is a skipped
    delete as well, or the success event alone. *)
Inductive recorded (id : ObjMetadata) (tc : TaskContext)
  : TaskContext -> Prop :=
| recordedFailed ev :
    recorded id tc (AddFailedDelete id (SendEvent ev tc))
| recordedSkipped ev :
    recorded id tc (AddSkippedDelete id (SendEvent ev tc))
| recordedAbandoned ev :
    recorded id tc
      (AddSkippedDelete id (SendEvent ev (AddAbandonedObject id tc)))
| recordedPruned ev :
    recorded id tc (SendEvent ev tc).

(** The ids of a list of objects. *)
Definition idsOf (objs : list Unstructured) : gset ObjMetadata :=
  list_to_set (UnstructuredToObjMetaOrDie <$> objs).

End outcome.

(** ** Reading the events of a channel *)

Module channel.

Import event.

#[global] Instance ApplyEventOperation_eq_dec :
  EqDecision ApplyEventOperation.
Proof. solve_decision. Defined.

#[global] Instance PruneEventOperation_eq_dec :
  EqDecision PruneEventOperation.
Proof. solve_decision. Defined.

#[global] Instance DeleteEventOperation_eq_dec :
  EqDecision DeleteEventOperation.
Proof. solve_decision. Defined.

#[global] Instance WaitEventOperation_eq_dec :
  EqDecision WaitEventOperation.
Proof. solve_decision. Defined.

Definition applied (op : ApplyEventOperation) (e : Event) : bool :=
  match e with
  | ApplyType ae => bool_decide (aeOperation ae = op)
  | _ => false
  end.

Definition pruned (op : PruneEventOperation) (e : Event) : bool :=
  match e with
  | PruneType pe => bool_decide (peOperation pe = op)
  | _ => false
  end.

Definition deleted (op : DeleteEventOperation) (e : Event) : bool :=
  match e with
  | DeleteType de => bool_decide (deOperation de = op)
  | _ => false
  end.

Definition waited (op : WaitEventOperation) (e : Event) : bool :=
  match e with
  | WaitType we => bool_decide (weOperation we = op)
  | _ => false
  end.

(** The status events of a channel that are about [id], in order. *)
Definition statusEventsOf (id : ObjMetadata) (ch : list Event)
  : list StatusEvent :=
  omap (fun e => match e with
                 | StatusType se =>
                     if decide (seIdentifier se = id) then Some se else None
                 | _ => None
                 end) ch.

(** The ten operation counters of the locals of [Print], with the
    operation each one counts. *)
Definition counters {Out} (l : printer.locals Out) : list Z :=
  [ printer.ApplyStats.ServersideApplied (printer.applyStats l);
    printer.ApplyStats.Created (printer.applyStats l);
    printer.ApplyStats.Unchanged (printer.applyStats l);
    printer.ApplyStats.Configured (printer.applyStats l);
    printer.PruneStats.Pruned (printer.pruneStats l);
    printer.PruneStats.Skipped (printer.pruneStats l);
    printer.DeleteStats.Deleted (printer.deleteStats l);
    printer.DeleteStats.Skipped (printer.deleteStats l);
    printer.WaitStats.Reconciled (printer.waitStats l);
    printer.WaitStats.Skipped (printer.waitStats l) ].

Definition counted : list (Event -> bool) :=
  [ applied ServersideApplied; applied Created; applied Unchanged;
    applied Configured; pruned Pruned; pruned PruneSkipped;
    deleted Deleted; deleted DeleteSkipped; waited Reconciled;
    waited ReconcileSkipped ].

(** A counter that can be incremented [n] more times without wrapping. *)
Definition room (n : Z) (z : Z) : Prop := (0 <= z ∧ z + n < 2 ^ 63)%Z.

End channel.

(** * Properties *)

(** ** The inventory-set task *)

Section InvSet.

Import taskrunner.

Lemma newInventory_written name objs0 prev tc :
  task.written name objs0 prev tc = task.newInventory (list_to_set prev) tc.
Proof.
  unfold task.written, task.Start. simpl.
  by rewrite list_to_set_elements_L.
Qed.

(** The model of the task passes every case of [TestInvSetTask]. *)
Lemma TestInvSetTask_passes : forallb task.runTest task.tests = true.
Proof. by vm_compute. Qed.

(** The set expression of section 4.4 fails the fourth case of the table
    and passes the others. *)
Lemma TestInvSetTask_spec_expression :
  filter (fun tc => task.runTestSpec tc = false) task.tests
  = [ task.mkCase
        "no apply objs, one prune failure, not in prev inventory; no inventory"
        [] [] [] [task.id1] [] [] [] [] ].
Proof. by vm_compute. Qed.

(** C1: the inventory-set task writes the new inventory of the spec's
    concrete scenarios.  With prev={} and failedDeletes={A} it writes {};
    with prev={A} and failedDeletes={A} it writes {A}; with prev={B,C},
    applied={A,B} and failedDeletes={B,C} it writes {A,B,C}; with
    prev={A,B,C}, applied={A,B} and abandoned={C} it writes {A,B}.  A, B
    and C are any three ids with C different from A and B. *)
Theorem invset_scenarios (name : string) (objs0 : ObjMetadataSet)
  (A B C : ObjMetadata) (HAC : A ≠ C) (HBC : B ≠ C) :
  (task.written name objs0 [] (task.scenario [] [A] []) = ∅)
  ∧ (task.written name objs0 [A] (task.scenario [] [A] []) = {[A]})
  ∧ (task.written name objs0 [B; C] (task.scenario [A; B] [B; C] [])
     = {[A; B; C]})
  ∧ (task.written name objs0 [A; B; C] (task.scenario [A; B] [] [C])
     = {[A; B]}).
Proof.
  rewrite !newInventory_written.
  unfold task.newInventory, task.scenario, task.testContext; simpl.
  repeat apply conj; set_solver.
Qed.

Lemma invset_scenarios_witness :
  task.id1 ≠ task.id3 ∧ task.id2 ≠ task.id3
  ∧ (task.written "inv" [] [task.id1; task.id2; task.id3]
       (task.scenario [task.id1; task.id2] [] [task.id3])
     = {[task.id1; task.id2]}).
Proof.
  assert (H13 : task.id1 ≠ task.id3) by (intros [=]).
  assert (H23 : task.id2 ≠ task.id3) by (intros [=]).
  split; [exact H13 | split; [exact H23 |]].
  exact (proj2 (proj2 (proj2
    (invset_scenarios "inv" [] task.id1 task.id2 task.id3 H13 H23)))).
Defined.



(** The written set stays within the previous inventory and the
    successful applies (invariant 1 of section 8) in every run whose
    skipped deletes come from there, as the prune candidates do. *)
Lemma invset_within (name : string) (objs0 prev : ObjMetadataSet)
  (tc : TaskContext) :
  skippedDeletes tc ⊆ list_to_set prev ∪ successfulApplies tc ->
  task.written name objs0 prev tc
  ⊆ list_to_set prev ∪ successfulApplies tc.
Proof.
  intros Hskip. rewrite newInventory_written. unfold task.newInventory.
  set_solver.
Qed.

End InvSet.

(** ** The inventory policy *)

Section Policy.

Import policy.

Lemma TestCanApply_passes : TestCanApply = true.
Proof. by vm_compute. Qed.

Lemma TestCanPrune_passes : TestCanPrune = true.
Proof. by vm_compute. Qed.

(** The match status is decided by the owner annotation alone. *)
Lemma InventoryIDMatch_spec inv obj :
  InventoryIDMatch inv obj
  = match GetAnnotations obj !! inventory.OwningInventoryKey with
    | None => Empty
    | Some v => if decide (v = ID inv) then Match else NoMatch
    end.
Proof. reflexivity. Qed.

(** C3: for every live object and inventory, [CanApply] and [CanPrune]
    give the verdict of the policy matrix: with no owner annotation,
    MustMatch denies both and AdoptIfNoInventory and AdoptAll permit both;
    with a matching annotation all three policies permit both; with a
    non-matching annotation MustMatch and AdoptIfNoInventory deny both and
    AdoptAll permits both. *)
Theorem policy_matrix (inv : InventoryInfo) (obj : Unstructured)
  (p : InventoryPolicy) :
  let st :=
    match GetAnnotations obj !! inventory.OwningInventoryKey with
    | None => Empty
    | Some v => if decide (v = ID inv) then Match else NoMatch
    end in
  CanApply inv (Some obj) p = policyMatrix st p
  ∧ CanPrune inv (Some obj) p = policyMatrix st p.
Proof.
  simpl. unfold CanApply, CanPrune. rewrite InventoryIDMatch_spec.
  destruct (GetAnnotations obj !! inventory.OwningInventoryKey) as [v|];
    [destruct (decide (v = ID inv)) |]; by destruct p.
Qed.

End Policy.

(** ** The inventory client *)

Lemma TestCreateOrUpdate_passes : fake.TestCreateOrUpdate canonical = true.
Proof. by vm_compute. Qed.

Section CreateOrUpdate.

Import inventory.

Context {World : Type}.
Variable c : dynamic.Interface World.
Variable sp : StatusPolicy.
Variable from : Unstructured -> result UnstructuredInventory.
Variable to : UnstructuredInventory -> result Unstructured.

Local Abbreviation counted := (fake.counted c sp from to).
Local Abbreviation counts := fake.counts.

(** C4: when the remote update answers not-found, [Update] falls back to
    one create and attaches the object the server returned as the
    [ClusterObj] of the record: the call counts go from (u, k) to
    (u+1, k+1).  A later [Update] of the same record whose remote update
    succeeds returns no error and creates nothing: the counts are then
    (u+2, k+1). *)
Theorem update_not_found_creates_once
  (ui : UnstructuredInventory) (opts : UpdateOptions) (u k : nat)
  (w w1 w2 : World) (uObj newObj : Unstructured) (err : error)
  (Hto : to ui = Ok uObj)
  (Hupd : dynamic.Update c fake.configmaps (GetNamespace uObj) uObj w
          = (Fail err, w1))
  (Hnf : IsNotFound (Some err) = true)
  (Hcre : dynamic.Create c fake.configmaps (GetNamespace uObj) uObj w1
          = (Ok newObj, w2)) :
  let ui1 := ui_SetClusterObj ui newObj in
  Update counted (UnstructuredInv (Some ui)) opts (counts u k, w)
  = (None, UnstructuredInv (Some ui1), (counts (S u) (S k), w2))
  ∧ ClusterObj ui1 = Some newObj
  ∧ ∀ (objs : ObjMetadataSet) (opts' : UpdateOptions)
      (uObj' newObj' : Unstructured) (w3 : World),
      to (ui_SetObjects ui1 objs) = Ok uObj' ->
      dynamic.Update c fake.configmaps (GetNamespace uObj') uObj' w2
      = (Ok newObj', w3) ->
      sp = StatusPolicyNone ∨ UpdateStatus opts' = false ->
      Update counted (UnstructuredInv (Some (ui_SetObjects ui1 objs))) opts'
        (counts (S u) (S k), w2)
      = (None,
         UnstructuredInv
           (Some (ui_SetClusterObj (ui_SetObjects ui1 objs) newObj')),
         (counts (S (S u)) (S k), w3)).
Proof.
  destruct err as [[] msg | |]; try discriminate Hnf.
  simpl. split; [| split; [reflexivity |]].
  - unfold Update; simpl. rewrite Hto; simpl. rewrite Hupd; simpl.
    by rewrite Hcre.
  - intros objs opts' uObj' newObj' w3 Hto' Hupd' Hskip.
    unfold Update; simpl. rewrite Hto'; simpl. rewrite Hupd'.
    destruct Hskip as [-> | ->]; [reflexivity |].
    by rewrite orb_true_r.
Qed.

(** A persistent not-found is reported: when the create fails too, its
    error is returned and nothing is retried. *)
Lemma update_create_error_is_reported
  (ui : UnstructuredInventory) (opts : UpdateOptions) (u k : nat)
  (w w1 w2 : World) (uObj : Unstructured) (err err' : error)
  (Hto : to ui = Ok uObj)
  (Hupd : dynamic.Update c fake.configmaps (GetNamespace uObj) uObj w
          = (Fail err, w1))
  (Hnf : IsNotFound (Some err) = true)
  (Hcre : dynamic.Create c fake.configmaps (GetNamespace uObj) uObj w1
          = (Fail err', w2)) :
  Update counted (UnstructuredInv (Some ui)) opts (counts u k, w)
  = (Some err', UnstructuredInv (Some ui), (counts (S u) (S k), w2)).
Proof.
  destruct err as [[] msg | |]; try discriminate Hnf.
  unfold Update; simpl. rewrite Hto; simpl. rewrite Hupd; simpl.
  by rewrite Hcre.
Qed.

End CreateOrUpdate.

(** The case "Create and Update inventory with expanding object set" of
    [TestCreateOrUpdate], on the fake dynamic client. *)
Lemma update_not_found_creates_once_witness :
  let to := inventory.inventoryToConfigMap canonical in
  let ui := inventory.ui_SetObjects fake.freshInventory [fake.pod1] in
  let uObj := SetData fake.copyInventoryInfo
                (DataStringMap {[ canonicalString fake.pod1 := "" ]}) in
  to ui = Ok uObj
  ∧ IsNotFound (Some (fake.notFound "inventory")) = true
  ∧ inventory.Update
      (fake.counted fake.FakeDynamicClient inventory.StatusPolicyNone
         (inventory.configMapToInventory canonical) to)
      (inventory.UnstructuredInv (Some ui))
      {| inventory.UpdateStatus := false |} (fake.counts 0 0, ∅)
    = (None,
       inventory.UnstructuredInv (Some (inventory.ui_SetClusterObj ui uObj)),
       (fake.counts 1 1,
        {[ fake.key fake.configmaps "test-namespace" "inventory" := uObj ]})).
Proof.
  simpl.
  assert (Hto : inventory.inventoryToConfigMap canonical
                  (inventory.ui_SetObjects fake.freshInventory [fake.pod1])
                = Ok (SetData fake.copyInventoryInfo
                        (DataStringMap {[ canonicalString fake.pod1 := "" ]})))
    by reflexivity.
  split; [exact Hto | split; [reflexivity |]].
  pose proof (update_not_found_creates_once fake.FakeDynamicClient
    inventory.StatusPolicyNone (inventory.configMapToInventory canonical)
    (inventory.inventoryToConfigMap canonical)
    _ {| inventory.UpdateStatus := false |} 0 0 ∅ ∅ _ _ _
    (fake.notFound "inventory") Hto eq_refl eq_refl eq_refl) as [H _].
  exact H.
Defined.

(** ** The ConfigMap codec *)

Section Codec.

Import inventory.

Variable codec : StringCodec.

(** The keys of the encoded map are the strings of the objects. *)
Lemma buildObjMap_dom objMetas objStatus :
  dom (buildObjMap codec objMetas objStatus)
  = list_to_set (String codec <$> objMetas).
Proof.
  unfold buildObjMap.
  set (objStatusMap := foldl _ ∅ objStatus).
  assert (Hgen : ∀ (acc : gmap string string),
    dom (foldl (fun objMap objMetadata =>
                  match objStatusMap !! objMetadata with
                  | Some status =>
                      <[String codec objMetadata := stringFrom status]> objMap
                  | None => <[String codec objMetadata := ""]> objMap
                  end) acc objMetas)
    = dom acc ∪ list_to_set (String codec <$> objMetas)).
  { induction objMetas as [| o objs IH]; intros acc; simpl.
    - set_solver.
    - rewrite IH. destruct (objStatusMap !! o); rewrite dom_insert_L;
        set_solver. }
  rewrite Hgen. set_solver.
Qed.

(** When every key parses, the loop returns the parsed objects in the
    order of the keys. *)
Lemma parseKeys_ok (keys : list string) (acc : ObjMetadataSet) :
  Forall (fun k => ∃ o, ParseObjMetadata codec k = Ok o) keys ->
  ∃ objs : ObjMetadataSet,
    parseKeys codec keys acc = Ok (acc ++ objs)
    ∧ Forall2 (fun k o => ParseObjMetadata codec k = Ok o) keys objs.
Proof.
  intros Hall. revert acc.
  induction Hall as [| k keys [o Ho] _ IH]; intros acc; simpl.
  - exists []. by rewrite app_nil_r.
  - rewrite Ho. destruct (IH (acc ++ [o])) as (objs & Heq & Hf2).
    exists (o :: objs). rewrite Heq, <- app_assoc. by split; [| constructor].
Qed.

(** Decoding reads the keys of the data map only: whatever the values
    are, a map whose keys are the strings of [objs] decodes to [objs]. *)
Lemma decode_keys (cm : Unstructured) (m : gmap string string)
  (objs : ObjMetadataSet) :
  uData cm = DataStringMap m ->
  dom m = list_to_set (String codec <$> objs) ->
  Forall (fun o => ParseObjMetadata codec (String codec o) = Ok o) objs ->
  ∃ inv', configMapToInventory codec cm = Ok inv'
          ∧ Equal (Objects (uiBase inv')) objs
          ∧ ObjectStatuses (uiBase inv') = []
          ∧ ClusterObj inv' = Some cm.
Proof.
  intros Hdata Hdom Hparse.
  rewrite Forall_forall in Hparse.
  assert (Hkeys : ∀ k, k ∈ (map_to_list m).*1 <->
                       ∃ o, o ∈ objs ∧ k = String codec o).
  { intros k.
    assert (Hk1 : k ∈ (map_to_list m).*1 <-> k ∈ dom m).
    { rewrite elem_of_dom, list_elem_of_fmap. split.
      - intros ([k' v] & -> & Hin). apply elem_of_map_to_list in Hin. eauto.
      - intros [v Hv]. exists (k, v). split; [done |].
        by apply elem_of_map_to_list. }
    rewrite Hk1, Hdom, elem_of_list_to_set, list_elem_of_fmap.
    naive_solver. }
  destruct (parseKeys_ok (map_to_list m).*1 []) as (objs' & Heq & Hf2).
  { apply Forall_forall. intros k Hk. apply Hkeys in Hk as (o & Ho & ->).
    exists o. by apply Hparse. }
  unfold configMapToInventory, NestedStringMap_data. rewrite Hdata, Heq.
  eexists. split; [reflexivity |]. simpl. split; [| done].
  unfold Equal. apply set_eq. intros o.
  rewrite !elem_of_list_to_set. split.
  - intros Ho. apply list_elem_of_lookup in Ho as [i Hi].
    destruct (Forall2_lookup_r _ _ _ _ _ Hf2 Hi) as (k & Hk & Hpk).
    apply list_elem_of_lookup_2 in Hk. apply Hkeys in Hk as (o' & Ho' & ->).
    rewrite (Hparse o' Ho') in Hpk. by injection Hpk as <-.
  - intros Ho.
    assert (Hk : String codec o ∈ (map_to_list m).*1)
      by (apply Hkeys; eauto).
    apply list_elem_of_lookup in Hk as [i Hi].
    destruct (Forall2_lookup_l _ _ _ _ _ Hf2 Hi) as (o' & Ho' & Hpk).
    rewrite (Hparse o Ho) in Hpk. injection Hpk as <-.
    by eapply list_elem_of_lookup_2.
Qed.

(** C5: encoding an inventory record to a ConfigMap and decoding it back
    gives an inventory whose objects equal the original ones as a set.
    The statuses are not read back, and the decoder reads the keys only:
    with every value of the data map replaced, by empty strings or by
    anything else, it decodes to the same set of objects.  The record
    holds a cluster object, and the strings of its objects parse back. *)
Theorem configmap_round_trip (inv : UnstructuredInventory)
  (cm : Unstructured)
  (Hobj : ClusterObj inv = Some cm)
  (Hparse : Forall (fun o => ParseObjMetadata codec (String codec o) = Ok o)
              (Objects (uiBase inv))) :
  ∃ (cm' : Unstructured) (inv' : UnstructuredInventory)
    (m : gmap string string),
    inventoryToConfigMap codec inv = Ok cm'
    ∧ uData cm' = DataStringMap m
    ∧ configMapToInventory codec cm' = Ok inv'
    ∧ Equal (Objects (uiBase inv')) (Objects (uiBase inv))
    ∧ ObjectStatuses (uiBase inv') = []
    ∧ ∀ m' : gmap string string, dom m' = dom m ->
        ∃ inv'', configMapToInventory codec (SetData cm' (DataStringMap m'))
                 = Ok inv''
                 ∧ Equal (Objects (uiBase inv'')) (Objects (uiBase inv)).
Proof.
  unfold inventoryToConfigMap. rewrite Hobj. simpl.
  set (m := buildObjMap codec _ _).
  assert (Hdom : dom m = list_to_set (String codec <$> Objs (uiBase inv)))
    by apply buildObjMap_dom.
  destruct (decode_keys (SetData cm (DataStringMap m)) m (Objs (uiBase inv))
              eq_refl Hdom Hparse) as (inv' & Hdec & Heq & Hst & _).
  exists (SetData cm (DataStringMap m)), inv', m.
  split_and!; try done.
  intros m' Hm'.
  destruct (decode_keys (SetData (SetData cm (DataStringMap m))
                           (DataStringMap m')) m' (Objs (uiBase inv))
              eq_refl (eq_trans Hm' Hdom) Hparse)
    as (inv'' & Hdec' & Heq' & _).
  eauto.
Qed.

End Codec.

Lemma configmap_round_trip_witness :
  let inv :=
    {| inventory.uiBase :=
         {| inventory.Objs := [fake.pod1; fake.pod3; fake.pod1];
            inventory.ObjStatuses := [] |};
       inventory.ClusterObj := Some fake.copyInventoryInfo |} in
  Forall (fun o => canonicalParse (canonicalString o) = Ok o)
    [fake.pod1; fake.pod3; fake.pod1]
  ∧ ∃ cm' inv',
      inventory.inventoryToConfigMap canonical inv = Ok cm'
      ∧ inventory.configMapToInventory canonical cm' = Ok inv'
      ∧ Equal (inventory.Objects (inventory.uiBase inv'))
          [fake.pod1; fake.pod3; fake.pod1].
Proof.
  simpl.
  assert (Hparse : Forall (fun o => canonicalParse (canonicalString o) = Ok o)
                     [fake.pod1; fake.pod3; fake.pod1])
    by (repeat constructor).
  split; [exact Hparse |].
  destruct (configmap_round_trip canonical
              {| inventory.uiBase :=
                   {| inventory.Objs := [fake.pod1; fake.pod3; fake.pod1];
                      inventory.ObjStatuses := [] |};
                 inventory.ClusterObj := Some fake.copyInventoryInfo |}
              fake.copyInventoryInfo eq_refl Hparse)
    as (cm' & inv' & m & Henc & _ & Hdec & Heq & _).
  exists cm', inv'. auto.
Defined.

(** ** The list printer *)

Section Printer.

Import event common printer.

Context {Out : Type}.

Lemma wrap64_small (z : Z) :
  (- 2 ^ 63 <= z < 2 ^ 63)%Z -> wrap64 z = z.
Proof.
  intros Hz. unfold wrap64.
  rewrite Z.mod_small; lia.
Qed.

Lemma inc_keeps_Failed (a : ApplyStats.t) (op : ApplyEventOperation) :
  ApplyStats.Failed (ApplyStats.inc a op) = ApplyStats.Failed a.
Proof. by destruct op. Qed.

Ltac step_case :=
  unfold checked in *;
  repeat match goal with
  | H : context [match ?x with _ => _ end] |- _ =>
      destruct x eqn:?; simpl in *; try discriminate
  end;
  simplify_eq; simpl;
  repeat match goal with
  | |- context [match ?x with _ => _ end] => destruct x eqn:?; simpl
  end;
  unfold bit, incr;
  repeat case_bool_decide; simplify_eq;
  rewrite ?inc_keeps_Failed;
  rewrite ?wrap64_small by lia; try lia.

Lemma handle_counts (formatter : Formatter Out) (printStatus : bool)
  (l l' : locals Out) (e : Event) :
  handle formatter printStatus l e = Continue l' ->
  nonneg l ->
  (failures l + 1 < 2 ^ 63)%Z -> (timeouts l + 1 < 2 ^ 63)%Z ->
  nonneg l'
  ∧ failures l' = (failures l + bit (failedEvent e))%Z
  ∧ timeouts l' = (timeouts l + bit (timeoutEvent e))%Z.
Proof.
  unfold nonneg, failures, timeouts.
  intros Hh (Ha & Hp & Hd & Ht) Hf Hto.
  destruct e as [ags | err | ae | se | pe | de | we | age];
    unfold handle in Hh; simpl in Hh.
  - step_case.
  - discriminate.
  - destruct ae as [id op aerr]; simpl in *. step_case.
  - step_case.
  - destruct pe as [g id op obj reason perr]; simpl in *. step_case.
  - destruct de as [g id op obj reason derr]; simpl in *. step_case.
  - destruct we as [id op]; simpl in *. step_case.
  - step_case.
Qed.

Lemma countEvents_cons p e ch :
  countEvents p (e :: ch) = (bit (p e) + countEvents p ch)%Z.
Proof.
  unfold countEvents. rewrite filter_cons.
  destruct (decide (p e = true)) as [H | H].
  - rewrite H. simpl. lia.
  - apply not_true_is_false in H. rewrite H. simpl. lia.
Qed.

Lemma countEvents_bounds p ch :
  (0 <= countEvents p ch <= Z.of_nat (length ch))%Z.
Proof.
  unfold countEvents. pose proof (length_filter (fun e => p e = true) ch).
  lia.
Qed.

Lemma rangeOver_counts (formatter : Formatter Out) (printStatus : bool)
  (ch : list Event) (l l' : locals Out) :
  rangeOver formatter printStatus ch l = Continue l' ->
  nonneg l ->
  (failures l + Z.of_nat (length ch) < 2 ^ 63)%Z ->
  (timeouts l + Z.of_nat (length ch) < 2 ^ 63)%Z ->
  nonneg l'
  ∧ failures l' = (failures l + countEvents failedEvent ch)%Z
  ∧ timeouts l' = (timeouts l + countEvents timeoutEvent ch)%Z.
Proof.
  revert l. induction ch as [| e ch IH]; intros l Hrun Hnn Hf Ht.
  - simpl in Hrun. injection Hrun as <-. unfold countEvents; simpl.
    split; [done | lia].
  - simpl in Hrun. rewrite length_cons in Hf, Ht.
    destruct (handle formatter printStatus l e) as [l1 |] eqn:Hh;
      [| discriminate].
    destruct (handle_counts _ _ _ _ _ Hh Hnn) as (Hnn1 & Hf1 & Ht1);
      [lia .. |].
    assert (Hb1 : (0 <= bit (failedEvent e) <= 1)%Z)
      by (destruct (failedEvent e); simpl; lia).
    assert (Hb2 : (0 <= bit (timeoutEvent e) <= 1)%Z)
      by (destruct (timeoutEvent e); simpl; lia).
    destruct (IH l1 Hrun Hnn1) as (Hnn' & Hf' & Ht'); [lia .. |].
    rewrite !countEvents_cons. split; [done | lia].
Qed.

(** C9, amended: when [Print] reaches the end of the channel, with
    failedSum the number of apply, prune and delete events that carry an
    error and M the number of reconcile timeouts, it returns
    "N resources failed, M resources failed to reconcile before timeout"
    when both are positive, "N resources failed" when only failedSum is,
    "M resources failed to reconcile before timeout" when only M is, and
    nil when both are zero. *)
Theorem print_summary (b : BaseListPrinter Out) (ch : list Event)
  (previewStrategy : DryRunStrategy) (printStatus : bool) (o : Out)
  (Hrun : reachesSummary b ch previewStrategy printStatus o)
  (Hlen : (Z.of_nat (length ch) < 2 ^ 63)%Z) :
  let failedSum := countEvents failedEvent ch in
  let M := countEvents timeoutEvent ch in
  (Print b ch previewStrategy printStatus o).1
  = if bool_decide (0 < failedSum)%Z && bool_decide (0 < M)%Z then
      Some (Errorf (pretty failedSum +:+ " resources failed, " +:+ pretty M
                    +:+ " resources failed to reconcile before timeout"))
    else if bool_decide (0 < failedSum)%Z then
      Some (Errorf (pretty failedSum +:+ " resources failed"))
    else if bool_decide (0 < M)%Z then
      Some (Errorf (pretty M
                    +:+ " resources failed to reconcile before timeout"))
    else None.
Proof.
  destruct Hrun as [l Hrun]. simpl.
  unfold Print. rewrite Hrun. simpl.
  destruct (rangeOver_counts _ _ _ _ _ Hrun) as (Hnn & Hf & Ht).
  { unfold nonneg, timeouts; simpl. lia. }
  { unfold failures; simpl. lia. }
  { unfold timeouts; simpl. lia. }
  unfold failures, timeouts in Hf, Ht. simpl in Hf, Ht.
  destruct Hnn as (Ha & Hp & Hd & _).
  pose proof (countEvents_bounds failedEvent ch) as Hb.
  unfold add64.
  rewrite (wrap64_small (_ + PruneStats.Failed _)) by lia.
  rewrite wrap64_small by lia.
  rewrite Hf. unfold timeouts in Ht. rewrite Ht.
  unfold summary, bothFailed, someFailed, someTimedOut.
  repeat case_bool_decide; simpl; try reflexivity; lia.
Qed.

End Printer.

Lemma print_summary_witness :
  printer.reachesSummary printer.quietPrinter [printer.sampleFailure; printer.sampleTimeout]
    common.DryRunNone false tt
  ∧ (Z.of_nat (length [printer.sampleFailure; printer.sampleTimeout]) < 2 ^ 63)%Z
  ∧ (printer.Print printer.quietPrinter [printer.sampleFailure; printer.sampleTimeout]
       common.DryRunNone false tt).1
    = Some (Errorf
        "1 resources failed, 1 resources failed to reconcile before timeout").
Proof.
  assert (Hrun : printer.reachesSummary printer.quietPrinter
                   [printer.sampleFailure; printer.sampleTimeout] common.DryRunNone false tt)
    by (eexists; reflexivity).
  assert (Hlen : (Z.of_nat (length [printer.sampleFailure; printer.sampleTimeout])
                  < 2 ^ 63)%Z) by (simpl; lia).
  split; [exact Hrun | split; [exact Hlen |]].
  exact (print_summary printer.quietPrinter [printer.sampleFailure; printer.sampleTimeout]
           common.DryRunNone false tt Hrun Hlen).
Defined.

(** C9, as stated, fails: one failed apply and no timeout make [Print]
    return "1 resources failed", not the two-part message. *)
Lemma print_single_failure_counterexample :
  printer.countEvents printer.failedEvent [printer.sampleFailure] = 1%Z
  ∧ printer.countEvents printer.timeoutEvent [printer.sampleFailure] = 0%Z
  ∧ (printer.Print printer.quietPrinter [printer.sampleFailure]
       common.DryRunNone false tt).1
    = Some (Errorf "1 resources failed")
  ∧ (printer.Print printer.quietPrinter [printer.sampleFailure]
       common.DryRunNone false tt).1
    ≠ Some (Errorf
        "1 resources failed, 0 resources failed to reconcile before timeout").
Proof. by vm_compute. Qed.

(** ** The pruner: the objects to prune *)

Section GetPruneObjs.

Import prune.

Context {World : Type}.
Variable p : Pruner World.
Variable w : World.

#[local] Arguments IsNotFound : simpl never.
#[local] Arguments IsNoMatchError : simpl never.

Lemma getObjects_spec (ids : ObjMetadataSet) (acc : list Unstructured) :
  match getObjects p ids acc w with
  | Ok objs =>
      objs = acc ++ liveObjects p w ids
      ∧ Forall (fun id => ∀ err, getObject p id w = Fail err ->
                                 passedOver err = true) ids
  | Fail err =>
      ∃ pre id post,
        ids = pre ++ id :: post
        ∧ getObject p id w = Fail err
        ∧ passedOver err = false
        ∧ Forall (fun id => ∀ err, getObject p id w = Fail err ->
                                   passedOver err = true) pre
  end.
Proof.
  revert acc. induction ids as [| id ids IH]; intros acc; simpl.
  - split; [by rewrite app_nil_r | constructor].
  - unfold liveObjects; simpl. fold (liveObjects p w ids).
    destruct (getObject p id w) as [o | err] eqn:Hget.
    + specialize (IH (acc ++ [o])).
      destruct (getObjects p ids (acc ++ [o]) w) as [objs | err'].
      * destruct IH as [-> Hall]. split; [by rewrite <- app_assoc |].
        constructor; [intros e He; by rewrite Hget in He | done].
      * destruct IH as (pre & id' & post & -> & Hf & Hp & Hall).
        exists (id :: pre), id', post. split_and!; try done.
        constructor; [| done]. intros e He. by rewrite Hget in He.
    + assert (Hskip : passedOver err = true ->
        match getObjects p ids acc w with
        | Ok objs =>
            objs = acc ++ liveObjects p w ids
            ∧ Forall (fun id => ∀ err, getObject p id w = Fail err ->
                                       passedOver err = true) (id :: ids)
        | Fail err0 =>
            ∃ pre id0 post,
              id :: ids = pre ++ id0 :: post
              ∧ getObject p id0 w = Fail err0
              ∧ passedOver err0 = false
              ∧ Forall (fun id => ∀ err, getObject p id w = Fail err ->
                                         passedOver err = true) pre
        end).
      { intros Hpo. specialize (IH acc).
        destruct (getObjects p ids acc w) as [objs | err'].
        - destruct IH as [-> Hall]. split; [done |].
          constructor; [| done]. intros e He. rewrite Hget in He.
          by injection He as <-.
        - destruct IH as (pre & id' & post & -> & Hf & Hp & Hall).
          exists (id :: pre), id', post. split_and!; try done.
          constructor; [| done]. intros e He. rewrite Hget in He.
          by injection He as <-. }
      unfold passedOver in *.
      destruct (IsNoMatchError (Some err)) eqn:Hnm; [by apply Hskip |].
      destruct (IsNotFound (Some err)) eqn:Hnf; [by apply Hskip |].
      exists [], id, ids. split_and!; try done. by rewrite Hnm, Hnf.
Qed.

Lemma elem_of_liveObjects (ids : ObjMetadataSet) (o : Unstructured) :
  o ∈ liveObjects p w ids <-> ∃ id, id ∈ ids ∧ getObject p id w = Ok o.
Proof.
  unfold liveObjects. rewrite list_elem_of_omap. split.
  - intros (id & Hid & Ho). exists id. split; [done |].
    destruct (getObject p id w); naive_solver.
  - intros (id & Hid & Ho). exists id. by rewrite Ho.
Qed.

(** C6: [GetPruneObjs] returns exactly the live objects whose ids are in
    the cluster inventory and not among the desired objects.  An id whose
    fetch fails with no-match or not-found is left out without an error;
    any other fetch error makes [GetPruneObjs] return that error. *)
Theorem GetPruneObjs_result (inv : policy.InventoryInfo)
  (objs : list Unstructured) (opts : Options) (invIDs : ObjMetadataSet)
  (Hinv : GetClusterObjs (InvClient p) inv (DryRunStrategy opts) w
          = Ok invIDs)
  (Hdiff : ∀ a b x, x ∈ Diff (ext p) a b <-> x ∈ a ∧ x ∉ b) :
  let desired := UnstructuredsToObjMetasOrDie objs in
  match GetPruneObjs p inv objs opts w with
  | Ok result =>
      result ≡ₚ liveObjects p w (Diff (ext p) invIDs desired)
      ∧ (∀ o, o ∈ result <->
              ∃ id, id ∈ invIDs ∧ (id ∉ desired)
                    ∧ getObject p id w = Ok o)
      ∧ (∀ id err, id ∈ invIDs -> id ∉ desired ->
                   getObject p id w = Fail err ->
                   IsNoMatchError (Some err) = true
                   ∨ IsNotFound (Some err) = true)
  | Fail err =>
      ∃ id, id ∈ invIDs ∧ (id ∉ desired)
            ∧ getObject p id w = Fail err
            ∧ IsNoMatchError (Some err) = false
            ∧ IsNotFound (Some err) = false
  end.
Proof.
  simpl. unfold GetPruneObjs. rewrite Hinv.
  set (ids := Diff (ext p) invIDs (UnstructuredsToObjMetasOrDie objs)).
  pose proof (getObjects_spec ids []) as Hspec.
  destruct (getObjects p ids [] w) as [found | err].
  - destruct Hspec as [-> Hall]. simpl.
    assert (Hperm : sortReverse (ext p) (liveObjects p w ids)
                    ≡ₚ liveObjects p w ids)
      by apply merge_sort_Permutation.
    split_and!; [done | |].
    + intros o. rewrite Hperm, elem_of_liveObjects.
      unfold ids. setoid_rewrite Hdiff. naive_solver.
    + intros id err Hin Hnot Hget.
      rewrite Forall_forall in Hall.
      assert (Hid : id ∈ ids) by (apply Hdiff; done).
      specialize (Hall id Hid err Hget). unfold passedOver in Hall.
      by apply orb_true_iff in Hall.
  - destruct Hspec as (pre & id & post & Hids & Hget & Hpo & _).
    assert (Hid : id ∈ ids) by (rewrite Hids; set_solver).
    apply Hdiff in Hid as [Hin Hnot].
    unfold passedOver in Hpo. apply orb_false_iff in Hpo as [Hnm Hnf].
    exists id. by split_and!.
Qed.

(** An error of the inventory read is returned as it is. *)
Lemma GetPruneObjs_inventory_error (inv : policy.InventoryInfo)
  (objs : list Unstructured) (opts : Options) (err : error) :
  GetClusterObjs (InvClient p) inv (DryRunStrategy opts) w = Fail err ->
  GetPruneObjs p inv objs opts w = Fail err.
Proof. intros H. unfold GetPruneObjs. by rewrite H. Qed.



End GetPruneObjs.

(** The example cluster: nothing is desired any more, pod-2 is not found
    and the kind of the widget is not registered, so the prune set is
    pod-1 and pod-3. *)
Lemma GetPruneObjs_result_witness :
  ∃ result,
    prune.GetPruneObjs prunetest.testPruner prunetest.testInventory []
      prunetest.testOptions prunetest.cluster = Ok result
    ∧ result ≡ₚ [prunetest.podObject "pod-1" prunetest.owned;
                 prunetest.podObject "pod-3" prunetest.owned].
Proof.
  assert (Hdiff : ∀ (a b : ObjMetadataSet) x,
            x ∈ prune.Diff (prune.ext prunetest.testPruner) a b
            <-> x ∈ a ∧ x ∉ b).
  { intros a b x. simpl.
    by rewrite elem_of_remove_dups, list_elem_of_difference. }
  pose proof (GetPruneObjs_result prunetest.testPruner prunetest.cluster
                prunetest.testInventory [] prunetest.testOptions
                prunetest.clusterInventory eq_refl Hdiff) as H.
  simpl in H.
  destruct (prune.GetPruneObjs prunetest.testPruner prunetest.testInventory
              [] prunetest.testOptions prunetest.cluster)
    as [result | err] eqn:Hres.
  - exists result. split; [done |]. destruct H as [-> _]. by vm_compute.
  - vm_compute in Hres. discriminate Hres.
Defined.



(** ** The pruner: pruning *)

Section Prune.

Import taskrunner prune.

Context {World : Type}.
Variable p : Pruner World.
Variable opts : Options.
Variable eventFactory : EventFactory.

(** The filters that let the object through leave the loop variables as
    they were, up to the reason of the last one. *)
Lemma filterLoop_passes (id : ObjMetadata)
  (pre rest : list (filter.ValidationFilter World))
  (obj : Unstructured) (r0 : string) (tc : TaskContext) (w : World) :
  Forall (passes tc w obj) pre ->
  ∃ r, filterLoop p opts eventFactory id (pre ++ rest)
         {| obj_ := obj; filtered := false; reason := r0; err_ := None;
            taskContext := tc; world := w |}
       = filterLoop p opts eventFactory id rest
           {| obj_ := obj; filtered := false; reason := r; err_ := None;
              taskContext := tc; world := w |}.
Proof.
  intros Hall. revert r0.
  induction Hall as [| f pre [r Hf] _ IH]; intros r0.
  - by exists r0.
  - simpl. rewrite Hf. apply IH.
Qed.

(** C8: in a run that is no dry run, an object blocked by the
    [PreventRemoveFilter] has its owner annotation removed by one client
    update of the copy without the annotation (no update when it carries
    none); its id is recorded as abandoned and as a skipped delete and a
    Skipped event is sent.  When the removal fails, in the mapping or in
    the update, the id is recorded as a failed delete only, with a Failed
    event.  An object blocked by any other filter is recorded as a
    skipped delete only, with a Skipped event. *)
Theorem prune_blocked_object
  (pre post : list (filter.ValidationFilter World))
  (f : filter.ValidationFilter World) (obj : Unstructured)
  (why : string) (tc : TaskContext) (w : World)
  (Hpre : Forall (passes tc w obj) pre)
  (Hblocked : filter.Filter f tc w obj = (true, why, None))
  (Hrun : common.ClientOrServerDryRun (DryRunStrategy opts) = false) :
  let id := UnstructuredToObjMetaOrDie obj in
  let stripped :=
    SetAnnotations obj
      (delete inventory.OwningInventoryKey (GetAnnotations obj)) in
  let abandoned o w' :=
    (AddSkippedDelete id
       (SendEvent (CreateSkippedEvent eventFactory o why)
          (AddAbandonedObject id tc)), w') in
  let failed e w' :=
    (AddFailedDelete id
       (SendEvent (CreateFailedEvent eventFactory id e) tc), w') in
  pruneObject p (pre ++ f :: post) eventFactory opts (tc, w) obj
  = if decide (filter.Name f = filter.PreventRemoveFilterName) then
      match GetAnnotations obj !! inventory.OwningInventoryKey with
      | None => abandoned obj w
      | Some _ =>
          match RESTMapping (Mapper p) (GK id) with
          | Fail e => failed e w
          | Ok resource =>
              match dynamic.Update (Client p) resource (Namespace id)
                      stripped w with
              | (Ok _, w') => abandoned stripped w'
              | (Fail e, w') => failed e w'
              end
          end
      end
    else
      (AddSkippedDelete id
         (SendEvent (CreateSkippedEvent eventFactory obj why) tc), w).
Proof.
  simpl. unfold pruneObject. simpl.
  destruct (filterLoop_passes (UnstructuredToObjMetaOrDie obj) pre
              (f :: post) obj "" tc w Hpre) as [r ->].
  simpl. rewrite Hblocked, Hrun. simpl.
  destruct (decide (filter.Name f = filter.PreventRemoveFilterName));
    [| reflexivity].
  unfold removeInventoryAnnotation, namespacedClient.
  destruct (GetAnnotations obj !! inventory.OwningInventoryKey);
    [| reflexivity].
  simpl. destruct (RESTMapping (Mapper p) _) as [resource | e1];
    [| reflexivity].
  destruct (dynamic.Update (Client p) resource _ _ w) as [[o | e2] w'];
    reflexivity.
Qed.

End Prune.

(** The example cluster: pod-1 is blocked by the prevent-remove filter;
    the update stores the pod without its owner annotation. *)
Lemma prune_blocked_object_witness :
  let obj := prunetest.podObject "pod-1" prunetest.owned in
  let id := UnstructuredToObjMetaOrDie obj in
  let st :=
    prune.pruneObject prunetest.testPruner
      [prunetest.passFilter; prunetest.blockFilter] prunetest.pruneEvents
      prunetest.testOptions (taskrunner.NewTaskContext, prunetest.cluster)
      obj in
  taskrunner.abandonedObjects st.1 = {[ id ]}
  ∧ taskrunner.skippedDeletes st.1 = {[ id ]}
  ∧ taskrunner.failedDeletes st.1 = ∅
  ∧ taskrunner.eventChannel st.1
    = [prune.CreateSkippedEvent prunetest.pruneEvents
         (prunetest.podObject "pod-1" ∅)
         "object has the prevent-removal annotation"]
  ∧ st.2 !! fake.key prunetest.pods "test-namespace" "pod-1"
    = Some (prunetest.podObject "pod-1" ∅).
Proof.
  assert (Hpre : Forall (prune.passes taskrunner.NewTaskContext
                           prunetest.cluster
                           (prunetest.podObject "pod-1" prunetest.owned))
                   [prunetest.passFilter])
    by (repeat constructor; by exists "").
  pose proof (prune_blocked_object prunetest.testPruner prunetest.testOptions
                prunetest.pruneEvents [prunetest.passFilter] []
                prunetest.blockFilter
                (prunetest.podObject "pod-1" prunetest.owned)
                "object has the prevent-removal annotation"
                taskrunner.NewTaskContext prunetest.cluster
                Hpre eq_refl eq_refl) as H.
  cbv zeta in H. cbn [app] in H. cbv zeta. rewrite H. clear H Hpre.
  split_and!; first
    [ apply (bool_decide_unpack _); vm_compute; exact I
    | vm_compute; reflexivity ].
Defined.

Section PruneFailures.

Import taskrunner prune.

Context {World : Type}.
Variable p : Pruner World.
Variable pruneFilters : list (filter.ValidationFilter World).
Variable opts : Options.
Variable eventFactory : EventFactory.

Local Abbreviation step := (pruneObject p pruneFilters eventFactory opts).

Lemma keeps_refl tc : keeps tc tc.
Proof. by split. Qed.

Lemma keeps_trans tc1 tc2 tc3 : keeps tc1 tc2 -> keeps tc2 tc3 -> keeps tc1 tc3.
Proof. intros [H1 H2] [H3 H4]. split; by etrans. Qed.

Lemma keeps_failed id ev tc :
  keeps tc (AddFailedDelete id (SendEvent ev tc)).
Proof. split; simpl; [set_solver | by apply prefix_app_r]. Qed.

Lemma keeps_skipped id e tc :
  keeps tc (AddSkippedDelete id (SendEvent e tc)).
Proof. split; simpl; [set_solver | by apply prefix_app_r]. Qed.

Lemma keeps_abandoned id e tc :
  keeps tc (AddSkippedDelete id (SendEvent e (AddAbandonedObject id tc))).
Proof. split; simpl; [set_solver | by apply prefix_app_r]. Qed.

Lemma keeps_sent e tc : keeps tc (SendEvent e tc).
Proof. split; simpl; [set_solver | by apply prefix_app_r]. Qed.

Lemma filterLoop_keeps id (filters : list (filter.ValidationFilter World))
  (v : filtering World) :
  keeps (taskContext v)
    (taskContext (filterLoop p opts eventFactory id filters v)).
Proof.
  revert v. induction filters as [| f filters IH]; intros v; simpl.
  - apply keeps_refl.
  - destruct (filter.Filter f (taskContext v) (world v) (obj_ v))
      as [[fl r] [e1 |]]; simpl.
    + apply keeps_failed.
    + destruct fl; [| apply (IH {| obj_ := obj_ v; filtered := false;
                                  reason := r; err_ := None;
                                  taskContext := taskContext v;
                                  world := world v |})].
      destruct (decide _); [| apply keeps_skipped].
      destruct (negb _); [| apply keeps_skipped].
      destruct (removeInventoryAnnotation p (obj_ v) (world v))
        as [[o [e2 |]] w']; simpl.
      * apply keeps_failed.
      * apply keeps_abandoned.
Qed.

Lemma step_keeps (st : TaskContext * World) (obj : Unstructured) :
  keeps st.1 (step st obj).1.
Proof.
  unfold pruneObject.
  set (v := filterLoop _ _ _ _ _ _).
  assert (Hv : keeps st.1 (taskContext v))
    by apply (filterLoop_keeps _ _
                {| obj_ := obj; filtered := false; reason := "";
                   err_ := None; taskContext := st.1; world := st.2 |}).
  destruct (filtered v || bool_decide (err_ v ≠ None)); [done |].
  destruct (negb _).
  - destruct (deleteObject _ _ _ _) as [[e1 |] w']; simpl;
      (eapply keeps_trans; [exact Hv |]);
      [apply keeps_failed | apply keeps_sent].
  - simpl. eapply keeps_trans; [exact Hv | apply keeps_sent].
Qed.

Lemma foldl_step_keeps (objs : list Unstructured)
  (st : TaskContext * World) :
  keeps st.1 (foldl step st objs).1.
Proof.
  revert st. induction objs as [| obj objs IH]; intros st; simpl.
  - apply keeps_refl.
  - eapply keeps_trans; [apply step_keeps | apply IH].
Qed.

(** Each of the three failures records the id as a failed delete and
    sends the Failed event, and nothing else. *)
Lemma step_failure (tc : TaskContext) (w : World) (obj : Unstructured)
  (e : error) :
  failsWith p pruneFilters opts tc w obj e ->
  ∃ w', step (tc, w) obj
        = (AddFailedDelete (UnstructuredToObjMetaOrDie obj)
             (SendEvent
                (CreateFailedEvent eventFactory
                   (UnstructuredToObjMetaOrDie obj) e) tc), w').
Proof.
  intros Hfail. unfold pruneObject. simpl.
  destruct Hfail as [pre f post fl r e0 -> Hpre Hf
                    | pre f post r obj' e0 w' -> Hpre Hf Hname Hdry Hrm
                    | e0 w' Hall Hdry Hdel].
  - destruct (filterLoop_passes p opts eventFactory
                (UnstructuredToObjMetaOrDie obj) pre (f :: post) obj ""
                tc w Hpre) as [r' ->].
    simpl. rewrite Hf. simpl. rewrite orb_true_r. by exists w.
  - destruct (filterLoop_passes p opts eventFactory
                (UnstructuredToObjMetaOrDie obj) pre (f :: post) obj ""
                tc w Hpre) as [r' ->].
    simpl. rewrite Hf. rewrite decide_True by done. rewrite Hdry. simpl.
    rewrite Hrm. simpl. by exists w'.
  - destruct (filterLoop_passes p opts eventFactory
                (UnstructuredToObjMetaOrDie obj) pruneFilters [] obj ""
                tc w Hall) as [r' Hloop].
    rewrite app_nil_r in Hloop. rewrite Hloop. simpl.
    rewrite Hdry. simpl. rewrite Hdel. by exists w'.
Qed.

End PruneFailures.

(** C10: [Prune] returns nil for every set of objects, filters and
    options.  Whenever the pruning of an object fails, by a filter error,
    by an error of the annotation removal or by a delete error, its id is
    among the failed deletes and the Failed event is on the channel when
    [Prune] returns, and the loop has gone on with the objects after
    it. *)
Theorem prune_records_failures {World : Type} (p : prune.Pruner World)
  (objs : list Unstructured)
  (pruneFilters : list (filter.ValidationFilter World))
  (tc : taskrunner.TaskContext) (taskName : string) (opts : prune.Options)
  (w : World) :
  let eventFactory := prune.CreateEventFactory (prune.Destroy opts) taskName in
  let step := prune.pruneObject p pruneFilters eventFactory opts in
  let result := prune.Prune p objs pruneFilters tc taskName opts w in
  result.1.1 = None
  ∧ ∀ (pre post : list Unstructured) (obj : Unstructured) (e : error),
      objs = pre ++ obj :: post ->
      prune.failsWith p pruneFilters opts
        (foldl step (tc, w) pre).1 (foldl step (tc, w) pre).2 obj e ->
      UnstructuredToObjMetaOrDie obj ∈ taskrunner.failedDeletes result.1.2
      ∧ prune.CreateFailedEvent eventFactory
          (UnstructuredToObjMetaOrDie obj) e
        ∈ taskrunner.eventChannel result.1.2
      ∧ (result.1.2, result.2)
        = foldl step (step (foldl step (tc, w) pre) obj) post.
Proof.
  simpl. split; [reflexivity |].
  intros pre post obj e -> Hfail.
  unfold prune.Prune. simpl. rewrite foldl_app. simpl.
  destruct (foldl (prune.pruneObject p pruneFilters
                     (prune.CreateEventFactory (prune.Destroy opts) taskName)
                     opts) (tc, w) pre) as [tc1 w1].
  simpl in Hfail.
  destruct (step_failure p pruneFilters opts
              (prune.CreateEventFactory (prune.Destroy opts) taskName)
              tc1 w1 obj e Hfail) as [w' Hstep].
  rewrite Hstep.
  pose proof (foldl_step_keeps p pruneFilters opts
                (prune.CreateEventFactory (prune.Destroy opts) taskName) post
                (taskrunner.AddFailedDelete (UnstructuredToObjMetaOrDie obj)
                   (taskrunner.SendEvent
                      (prune.CreateFailedEvent
                         (prune.CreateEventFactory (prune.Destroy opts)
                            taskName)
                         (UnstructuredToObjMetaOrDie obj) e) tc1), w'))
    as [Hsub Hpre].
  simpl in Hsub, Hpre.
  split_and!.
  - apply Hsub. set_solver.
  - destruct Hpre as [k ->]. set_solver.
  - by destruct (foldl _ _ post).
Qed.

(** The example cluster: pod-2 is no longer there, so its delete fails;
    the failure is recorded and the loop goes on to delete pod-1. *)
Lemma prune_records_failures_witness :
  let gone := prunetest.podObject "pod-2" prunetest.owned in
  let result :=
    prune.Prune prunetest.testPruner
      [gone; prunetest.podObject "pod-1" prunetest.owned]
      [prunetest.passFilter] taskrunner.NewTaskContext "prune-0"
      prunetest.testOptions prunetest.cluster in
  result.1.1 = None
  ∧ UnstructuredToObjMetaOrDie gone ∈ taskrunner.failedDeletes result.1.2
  ∧ prune.CreateFailedEvent prunetest.pruneEvents
      (UnstructuredToObjMetaOrDie gone) (fake.notFound "pod-2")
    ∈ taskrunner.eventChannel result.1.2.
Proof.
  cbv zeta.
  pose proof (prune_records_failures prunetest.testPruner
                [prunetest.podObject "pod-2" prunetest.owned;
                 prunetest.podObject "pod-1" prunetest.owned]
                [prunetest.passFilter] taskrunner.NewTaskContext "prune-0"
                prunetest.testOptions prunetest.cluster) as [Hnil Hrec].
  split; [exact Hnil |].
  destruct (Hrec [] [prunetest.podObject "pod-1" prunetest.owned]
              (prunetest.podObject "pod-2" prunetest.owned)
              (fake.notFound "pod-2") eq_refl) as (Hin & Hev & _).
  - eapply prune.deleteError.
    + repeat constructor. by exists "".
    + reflexivity.
    + reflexivity.
  - split; [exact Hin | exact Hev].
Defined.

(** * Further properties of the code *)

(** ** The fake inventory client *)

(** X1: a forced error makes [Update], [Get] and [Delete] of the fake
    client return it and leaves the stored inventory alone; once the error
    is cleared, [Get] returns the inventory of the last [Update] that went
    through.  [List] returns nothing, error or not. *)
Theorem fake_client_forced_error (fic : inventory.FakeClient)
  (inv1 inv2 : inventory.Inventory) (err : error)
  (opts1 opts2 : inventory.UpdateOptions) :
  let stored :=
    inventory.FakeClient_Update (inventory.ClearError fic) inv1 opts1 in
  let forced := inventory.SetError stored.2 err in
  let refused := inventory.FakeClient_Update forced inv2 opts2 in
  stored.1 = None
  ∧ inventory.FakeClient_Get stored.2 = Ok inv1
  ∧ refused.1 = Some err
  ∧ inventory.FakeClient_Get refused.2 = Fail err
  ∧ fakeinv.FakeClient_Delete refused.2 = Some err
  ∧ fakeinv.FakeClient_List refused.2 = Ok []
  ∧ inventory.FakeClient_Get (inventory.ClearError refused.2) = Ok inv1.
Proof. simpl. by split_and!. Qed.

(** ** The client over one unstructured object *)

Section ClientEdges.

Import inventory.

Context {World : Type}.
Variable c : dynamic.Interface World.
Variable sp : StatusPolicy.
Variable from : Unstructured -> result UnstructuredInventory.
Variable to : UnstructuredInventory -> result Unstructured.

Local Abbreviation counted := (fake.counted c sp from to).
Local Abbreviation counts := fake.counts.

(** X2: [Update] refuses an inventory that is nil, of another type, or
    that cannot be encoded: it returns an error, calls the remote store
    not at all and leaves the record as it was. *)
Theorem update_refuses_without_remote_call (inv : Inventory)
  (opts : UpdateOptions) (u k : nat) (w : World)
  (Hbad : ∀ ui, inv = UnstructuredInv (Some ui) -> ∃ e, to ui = Fail e) :
  ∃ e, Update counted inv opts (counts u k, w)
       = (Some e, inv, (counts u k, w)).
Proof.
  destruct inv as [| [ui |] | fi]; simpl; eauto.
  destruct (Hbad ui eq_refl) as [e He]. rewrite He. eauto.
Qed.

(** X3: a remote update error other than not-found is returned as it is:
    nothing is created and the record keeps its cluster object. *)
Theorem update_other_error_is_returned
  (ui : UnstructuredInventory) (opts : UpdateOptions) (u k : nat)
  (w w1 : World) (uObj : Unstructured) (err : error)
  (Hto : to ui = Ok uObj)
  (Hupd : dynamic.Update c fake.configmaps (GetNamespace uObj) uObj w
          = (Fail err, w1))
  (Hother : IsNotFound (Some err) = false) :
  Update counted (UnstructuredInv (Some ui)) opts (counts u k, w)
  = (Some err, UnstructuredInv (Some ui), (counts (S u) k, w1)).
Proof.
  unfold Update; simpl. rewrite Hto; simpl. rewrite Hupd.
  by destruct err as [[] msg | msg | msg]; simpl in *.
Qed.


(** X5: [Delete] never reports not-found: it returns nil exactly when the
    remote delete returned nil or not-found, and the error of the remote
    delete otherwise.  Without an id it fails and calls nothing. *)
Theorem delete_not_found_is_success (id : option Info) (w : World) :
  let cic := {| client := c; resource := fake.configmaps;
                statusPolicy := sp; fromUnstructured := from;
                toUnstructured := to |} in
  let res := invclient.Delete cic id w in
  IsNotFound res.1 = false
  ∧ match id with
    | None => res = (Some (Errorf "id is nil"), w)
    | Some i =>
        let remote :=
          dynamic.Delete c fake.configmaps (infoNamespace i) (infoName i)
            {| dynamic.PropagationPolicy := None |} w in
        res.2 = remote.2
        ∧ res.1 = (if IsNotFound remote.1 then None else remote.1)
    end.
Proof.
  simpl. destruct id as [i |]; simpl; [| done].
  destruct (dynamic.Delete c _ _ _ _ w) as [[e |] w']; simpl.
  - by destruct e as [[] msg | msg | msg].
  - done.
Qed.

Variable remoteList : World -> result (list Unstructured).

Lemma decodeItems_spec (cic : UnstructuredClient World)
  (items : list Unstructured) (acc : list Inventory) :
  match invclient.decodeItems cic items acc with
  | Ok invs =>
      ∃ more, invs = acc ++ more
              ∧ Forall2 (invclient.decoded cic) items more
  | Fail e =>
      ∃ pre obj post,
        items = pre ++ obj :: post
        ∧ fromUnstructured cic obj = Fail e
        ∧ Forall (fun o => ∃ uInv, fromUnstructured cic o = Ok uInv) pre
  end.
Proof.
  revert acc. induction items as [| obj items IH]; intros acc; simpl.
  - exists []. by rewrite app_nil_r.
  - destruct (fromUnstructured cic obj) as [uInv | e] eqn:Hobj.
    + specialize (IH (acc ++ [UnstructuredInv (Some uInv)])).
      destruct (invclient.decodeItems cic items _) as [invs | e].
      * destruct IH as (more & -> & Hall).
        exists (UnstructuredInv (Some uInv) :: more).
        rewrite <- app_assoc. split; [done |].
        constructor; [by exists uInv | done].
      * destruct IH as (pre & o & post & -> & Ho & Hpre).
        exists (obj :: pre), o, post. split_and!; try done.
        constructor; eauto.
    + exists [], obj, items. by split_and!.
Qed.

(** X6: [List] returns one inventory per item of the remote list, each
    the decoded item, in the order of the list.  It fails with the error
    of the remote list, or with the decoding error of the first item that
    does not decode. *)
Theorem list_decodes_every_item (w : World) :
  let cic := {| client := c; resource := fake.configmaps;
                statusPolicy := sp; fromUnstructured := from;
                toUnstructured := to |} in
  match invclient.List cic remoteList w with
  | Ok invs =>
      ∃ items, remoteList w = Ok items
               ∧ Forall2 (invclient.decoded cic) items invs
  | Fail e =>
      remoteList w = Fail e
      ∨ ∃ pre obj post,
          remoteList w = Ok (pre ++ obj :: post)
          ∧ from obj = Fail e
          ∧ Forall (fun o => ∃ uInv, from o = Ok uInv) pre
  end.
Proof.
  simpl. unfold invclient.List.
  destruct (remoteList w) as [items | e]; [| by left].
  pose proof (decodeItems_spec
                {| client := c; resource := fake.configmaps;
                   statusPolicy := sp; fromUnstructured := from;
                   toUnstructured := to |} items []) as H.
  destruct (invclient.decodeItems _ items []) as [invs | e].
  - destruct H as (more & -> & Hall). exists items. by split.
  - destruct H as (pre & obj & post & -> & Hobj & Hpre).
    right. exists pre, obj, post. by split_and!.
Qed.

End ClientEdges.

Lemma update_refuses_without_remote_call_witness :
  ∃ e, inventory.Update
         (fake.counted fake.FakeDynamicClient inventory.StatusPolicyAll
            (inventory.configMapToInventory canonical)
            (inventory.inventoryToConfigMap canonical))
         (inventory.UnstructuredInv (Some fixtures.detached))
         fixtures.withStatus (fake.counts 0 0, ∅)
       = (Some e, inventory.UnstructuredInv (Some fixtures.detached),
          (fake.counts 0 0, ∅)).
Proof.
  apply (update_refuses_without_remote_call fake.FakeDynamicClient
           inventory.StatusPolicyAll
           (inventory.configMapToInventory canonical)
           (inventory.inventoryToConfigMap canonical)).
  intros ui [= <-]. by eexists.
Defined.

Lemma update_other_error_is_returned_witness :
  IsNotFound (Some fixtures.conflict) = false
  ∧ inventory.Update
      (fake.counted fixtures.conflictClient inventory.StatusPolicyAll
         (inventory.configMapToInventory canonical)
         (inventory.inventoryToConfigMap canonical))
      (inventory.UnstructuredInv (Some fixtures.observedInventory))
      fixtures.withStatus (fake.counts 0 0, fixtures.observedStore)
    = (Some fixtures.conflict,
       inventory.UnstructuredInv (Some fixtures.observedInventory),
       (fake.counts 1 0, fixtures.observedStore)).
Proof.
  split; [reflexivity |].
  exact (update_other_error_is_returned fixtures.conflictClient
           inventory.StatusPolicyAll
           (inventory.configMapToInventory canonical)
           (inventory.inventoryToConfigMap canonical)
           fixtures.observedInventory fixtures.withStatus 0 0
           fixtures.observedStore fixtures.observedStore _
           fixtures.conflict eq_refl eq_refl eq_refl).
Defined.


(** ** The ConfigMap codec, read further *)

Section CodecMore.

Import inventory configmap.

Variable codec : StringCodec.

Lemma stringFrom_not_empty (status : actuation.ObjectStatus) :
  stringFrom status ≠ "".
Proof.
  unfold stringFrom. case_decide as Heq.
  - exfalso. simpl in Heq. discriminate Heq.
  - simpl. discriminate.
Qed.

(** The status map of [buildObjMap] holds, for an object, the last status
    that refers to it. *)
Lemma statusMap_lookup (statuses : list actuation.ObjectStatus)
  (o : ObjMetadata) :
  foldl (fun (m : gmap ObjMetadata actuation.ObjectStatus) status =>
           <[ObjMetadataFromObjectReference
               (actuation.osObjectReference status) := status]> m)
    ∅ statuses !! o
  = statusOf o statuses.
Proof.
  unfold statusOf.
  induction statuses as [| st statuses IH] using rev_ind; [done |].
  rewrite foldl_app, filter_app. simpl. rewrite lookup_insert.
  rewrite filter_cons, filter_nil. case_decide as Href.
  - by rewrite last_snoc.
  - by rewrite app_nil_r.
Qed.

(** What the data map holds under a key: the value of the last object
    with that string, or what was there before. *)
Lemma objMap_lookup (M : gmap ObjMetadata actuation.ObjectStatus)
  (objMetas : ObjMetadataSet) (acc : gmap string string) (k : string) :
  foldl (fun objMap objMetadata =>
           match M !! objMetadata with
           | Some status =>
               <[String codec objMetadata := stringFrom status]> objMap
           | None => <[String codec objMetadata := ""]> objMap
           end) acc objMetas !! k
  = match last (filter (fun o => String codec o = k) objMetas) with
    | Some o => Some (valueOf (M !! o))
    | None => acc !! k
    end.
Proof.
  induction objMetas as [| o objs IH] using rev_ind; [done |].
  rewrite foldl_app, filter_app. simpl.
  rewrite filter_cons, filter_nil. case_decide as Hk.
  - rewrite last_snoc. subst k.
    destruct (M !! o); simpl; by rewrite lookup_insert_eq.
  - rewrite app_nil_r, <- IH.
    destruct (M !! o); by rewrite lookup_insert_ne.
Qed.

(** X7: in the data map [buildObjMap] builds, an object whose string no
    other object of the set shares is stored with the encoding of the
    last status given for it, and with the empty string when no status
    refers to it; the two never coincide, since the encoding of a status
    is never empty. *)
Theorem encoded_value (objMetas : ObjMetadataSet)
  (objStatus : list actuation.ObjectStatus) (o : ObjMetadata)
  (Hin : o ∈ objMetas)
  (Hinj : ∀ o', o' ∈ objMetas -> String codec o' = String codec o ->
                o' = o) :
  buildObjMap codec objMetas objStatus !! String codec o
  = Some (valueOf (statusOf o objStatus))
  ∧ (valueOf (statusOf o objStatus) = "" <-> statusOf o objStatus = None).
Proof.
  split.
  - unfold buildObjMap. rewrite objMap_lookup.
    destruct (last (filter (fun o' => String codec o' = String codec o)
                      objMetas)) as [o' |] eqn:Hlast.
    + apply last_Some_elem_of in Hlast.
      apply list_elem_of_filter in Hlast as [Hs Ho'].
      rewrite (Hinj o' Ho' Hs). by rewrite statusMap_lookup.
    + apply last_None in Hlast.
      by apply (filter_nil_not_elem_of _ _ o) in Hlast.
  - destruct (statusOf o objStatus) as [st |]; simpl; [| done].
    split; [| done]. intros H. by apply stringFrom_not_empty in H.
Qed.

(** The loop over the keys, whatever its outcome. *)
Lemma parseKeys_spec (keys : list string) (acc : ObjMetadataSet) :
  match parseKeys codec keys acc with
  | Ok objs =>
      ∃ more, objs = acc ++ more
              ∧ Forall2 (fun k o => ParseObjMetadata codec k = Ok o)
                  keys more
  | Fail e => ∃ k, k ∈ keys ∧ ParseObjMetadata codec k = Fail e
  end.
Proof.
  revert acc. induction keys as [| k keys IH]; intros acc; simpl.
  - exists []. by rewrite app_nil_r.
  - destruct (ParseObjMetadata codec k) as [o | e] eqn:Hk.
    + specialize (IH (acc ++ [o])).
      destruct (parseKeys codec keys (acc ++ [o])) as [objs | e].
      * destruct IH as (more & -> & Hall). exists (o :: more).
        rewrite <- app_assoc. by split; [| constructor].
      * destruct IH as (k' & Hk' & He). exists k'. split; [set_solver | done].
    + exists k. split; [set_solver | done].
Qed.

Lemma elem_of_keys (m : gmap string string) (k : string) :
  k ∈ (map_to_list m).*1 <-> k ∈ dom m.
Proof.
  rewrite elem_of_dom, list_elem_of_fmap. split.
  - intros ([k' v] & -> & Hin). apply elem_of_map_to_list in Hin. eauto.
  - intros [v Hv]. exists (k, v). split; [done |].
    by apply elem_of_map_to_list.
Qed.

(** X8: decoding a ConfigMap without data field gives the empty
    inventory; with a data field that is no string map it fails with the
    fixed retrieval error; with a data map it gives one object per key,
    the parsed keys, and fails with the parse error of a key when one
    does not parse.  The decoded record holds the ConfigMap itself and no
    statuses. *)
Theorem decode_outcomes (cm : Unstructured) :
  match configMapToInventory codec cm with
  | Ok inv =>
      ClusterObj inv = Some cm
      ∧ ObjectStatuses (uiBase inv) = []
      ∧ match uData cm with
        | DataAbsent => Objects (uiBase inv) = []
        | DataStringMap m =>
            length (Objects (uiBase inv)) = size m
            ∧ ∀ o, o ∈ Objects (uiBase inv) <->
                   ∃ k, k ∈ dom m ∧ ParseObjMetadata codec k = Ok o
        | DataMalformed => False
        end
  | Fail e =>
      match uData cm with
      | DataAbsent => False
      | DataStringMap m => ∃ k, k ∈ dom m ∧ ParseObjMetadata codec k = Fail e
      | DataMalformed =>
          e = Errorf "error retrieving object metadata from inventory object"
      end
  end.
Proof.
  unfold configMapToInventory, NestedStringMap_data.
  destruct (uData cm) as [| m |]; simpl; [done | | done].
  pose proof (parseKeys_spec (map_to_list m).*1 []) as H.
  destruct (parseKeys codec (map_to_list m).*1 []) as [objs | e]; simpl.
  - destruct H as (more & -> & Hall). simpl. split_and!; try done.
    + rewrite <- (Forall2_length _ _ _ Hall), length_fmap.
      by rewrite length_map_to_list.
    + intros o. split.
      * intros Ho. apply list_elem_of_lookup in Ho as [i Hi].
        destruct (Forall2_lookup_r _ _ _ _ _ Hall Hi) as (k & Hk & Hp).
        exists k. split; [| done].
        apply elem_of_keys. by eapply list_elem_of_lookup_2.
      * intros (k & Hk & Hp). apply elem_of_keys in Hk.
        apply list_elem_of_lookup in Hk as [i Hi].
        destruct (Forall2_lookup_l _ _ _ _ _ Hall Hi) as (o' & Ho' & Hp').
        rewrite Hp in Hp'. injection Hp' as <-.
        by eapply list_elem_of_lookup_2.
  - destruct H as (k & Hk & He). exists k. split; [| done].
    by apply elem_of_keys.
Qed.


(** X10: the statuses do not survive a decode: a ConfigMap whose keys
    parse to objects with those very strings, decoded and encoded again,
    has the same keys with every value the empty string. *)
Theorem decode_encode_clears_statuses (cm : Unstructured)
  (m : gmap string string)
  (Hdata : uData cm = DataStringMap m)
  (Hkeys : ∀ k, k ∈ dom m ->
                ∃ o, ParseObjMetadata codec k = Ok o ∧ String codec o = k) :
  ∃ inv, configMapToInventory codec cm = Ok inv
         ∧ inventoryToConfigMap codec inv
           = Ok (SetData cm (DataStringMap ((fun _ => "") <$> m))).
Proof.
  pose proof (parseKeys_spec (map_to_list m).*1 []) as Hparsed.
  unfold configMapToInventory, NestedStringMap_data. rewrite Hdata.
  destruct (parseKeys codec (map_to_list m).*1 []) as [objs | e].
  - destruct Hparsed as (more & -> & Hall). simpl.
    eexists. split; [reflexivity |].
    unfold inventoryToConfigMap; simpl. f_equal.
    destruct cm; simpl in *. do 2 f_equal.
    apply map_eq. intros k. unfold buildObjMap; simpl.
    rewrite objMap_lookup, lookup_fmap.
    destruct (last (filter (fun o => String codec o = k) more))
      as [o |] eqn:Hlast.
    + apply last_Some_elem_of in Hlast.
      apply list_elem_of_filter in Hlast as [Hs Ho].
      apply list_elem_of_lookup in Ho as [i Hi].
      destruct (Forall2_lookup_r _ _ _ _ _ Hall Hi) as (k' & Hk' & Hp).
      apply list_elem_of_lookup_2, elem_of_keys in Hk'.
      destruct (Hkeys k' Hk') as (o' & Hp' & Hs').
      rewrite Hp in Hp'. injection Hp' as <-.
      assert (k' = k) by congruence. subst k'.
      apply elem_of_dom in Hk' as [v Hv]. rewrite Hs in Hv.
      by rewrite Hv, lookup_empty.
    + rewrite lookup_empty.
      destruct (m !! k) as [v |] eqn:Hmk; [| done]. exfalso.
      assert (Hk : k ∈ dom m) by (apply elem_of_dom; eauto).
      destruct (Hkeys k Hk) as (o & Hp & Hs).
      apply elem_of_keys, list_elem_of_lookup in Hk as [i Hi].
      destruct (Forall2_lookup_l _ _ _ _ _ Hall Hi) as (o' & Ho' & Hp').
      rewrite Hp in Hp'. injection Hp' as <-.
      apply last_None in Hlast.
      eapply (filter_nil_not_elem_of _ _ o); [exact Hlast | done |].
      by eapply list_elem_of_lookup_2.
  - destruct Hparsed as (k & Hk & He).
    apply elem_of_keys in Hk. destruct (Hkeys k Hk) as (o & Hp & _).
    congruence.
Qed.

End CodecMore.

Lemma encoded_value_witness :
  inventory.buildObjMap canonical [fake.pod1; fake.pod3]
    [fixtures.podStatus fake.pod1] !! canonicalString fake.pod1
  = Some (inventory.stringFrom (fixtures.podStatus fake.pod1))
  ∧ inventory.buildObjMap canonical [fake.pod1; fake.pod3]
      [fixtures.podStatus fake.pod1] !! canonicalString fake.pod3
    = Some "".
Proof.
  assert (Hinj : ∀ o o', o ∈ [fake.pod1; fake.pod3] ->
                         o' ∈ [fake.pod1; fake.pod3] ->
                         canonicalString o' = canonicalString o -> o' = o).
  { intros o o' Ho Ho'.
    rewrite !elem_of_cons, elem_of_nil in Ho, Ho'.
    destruct Ho as [-> | [-> | []]], Ho' as [-> | [-> | []]];
      by vm_compute. }
  split.
  - refine (proj1 (encoded_value canonical [fake.pod1; fake.pod3]
                     [fixtures.podStatus fake.pod1] fake.pod1 _ _)).
    + set_solver.
    + intros o'. apply Hinj. set_solver.
  - refine (proj1 (encoded_value canonical [fake.pod1; fake.pod3]
                     [fixtures.podStatus fake.pod1] fake.pod3 _ _)).
    + set_solver.
    + intros o'. apply Hinj. set_solver.
Defined.

Lemma decode_encode_clears_statuses_witness :
  ∃ inv,
    inventory.configMapToInventory canonical fixtures.stored = Ok inv
    ∧ inventory.inventoryToConfigMap canonical inv
      = Ok (SetData fake.copyInventoryInfo
              (DataStringMap {[ canonicalString fake.pod1 := "" ]})).
Proof.
  destruct (decode_encode_clears_statuses canonical fixtures.stored
              {[ canonicalString fake.pod1 := "{}" ]} eq_refl)
    as (inv & Hdec & Henc).
  - intros k Hk. rewrite dom_singleton_L in Hk.
    apply elem_of_singleton in Hk as ->. by exists fake.pod1.
  - exists inv. split; [exact Hdec |].
    rewrite Henc. by rewrite map_fmap_singleton.
Defined.

(** ** The pruner, read further *)

Section PruneMore.

Import taskrunner prune outcome.

Context {World : Type}.
Variable p : Pruner World.
Variable pruneFilters : list (filter.ValidationFilter World).
Variable opts : Options.
Variable eventFactory : EventFactory.

Local Abbreviation step := (pruneObject p pruneFilters eventFactory opts).
Local Abbreviation dryRun :=
  (common.ClientOrServerDryRun (DryRunStrategy opts)).

(** X11: [removeInventoryAnnotation] returns a copy without the owner
    annotation and with every other annotation and field as in the
    object, whatever the outcome of the update; an object that carries no
    owner annotation is returned as it is, without error and without any
    call to the cluster. *)
Theorem removeInventoryAnnotation_strips (obj : Unstructured) (w : World) :
  let r := removeInventoryAnnotation p obj w in
  GetAnnotations r.1.1 !! inventory.OwningInventoryKey = None
  ∧ (∀ k, k ≠ inventory.OwningInventoryKey ->
          GetAnnotations r.1.1 !! k = GetAnnotations obj !! k)
  ∧ r.1.1 = SetAnnotations obj (GetAnnotations r.1.1)
  ∧ (GetAnnotations obj !! inventory.OwningInventoryKey = None ->
     r = (obj, None, w)).
Proof.
  simpl. unfold removeInventoryAnnotation.
  destruct (GetAnnotations obj !! inventory.OwningInventoryKey)
    as [v |] eqn:Hann.
  - assert (Hres : ∀ x : Unstructured * option error * World,
              x.1.1 = SetAnnotations obj
                        (delete inventory.OwningInventoryKey
                           (GetAnnotations obj)) ->
              GetAnnotations x.1.1 !! inventory.OwningInventoryKey = None
              ∧ (∀ k, k ≠ inventory.OwningInventoryKey ->
                      GetAnnotations x.1.1 !! k = GetAnnotations obj !! k)
              ∧ x.1.1 = SetAnnotations obj (GetAnnotations x.1.1)
              ∧ (Some v = None -> x = (obj, None, w))).
    { intros x ->. simpl. split_and!; try done.
      - apply lookup_delete_eq.
      - intros k Hk. by apply lookup_delete_ne. }
    destruct (namespacedClient p _) as [[resource ns] | e];
      [| by apply Hres].
    destruct (dynamic.Update (Client p) resource ns _ w) as [res w'].
    by apply Hres.
  - simpl. split_and!; try done. by destruct obj.
Qed.

(** The filter loop, started as the loop body starts it, either lets the
    object through untouched or stops with one of three records. *)
Lemma filterLoop_outcome (id : ObjMetadata)
  (filters : list (filter.ValidationFilter World)) (obj : Unstructured)
  (r0 : string) (tc : TaskContext) (w : World) :
  let v := filterLoop p opts eventFactory id filters
             {| obj_ := obj; filtered := false; reason := r0; err_ := None;
                taskContext := tc; world := w |} in
  (filtered v = false ∧ err_ v = None ∧ obj_ v = obj
   ∧ taskContext v = tc ∧ world v = w)
  ∨ ((filtered v || bool_decide (err_ v ≠ None)) = true
     ∧ (dryRun = true -> world v = w)
     ∧ ((∃ ev, taskContext v = AddFailedDelete id (SendEvent ev tc))
        ∨ (∃ ev, taskContext v = AddSkippedDelete id (SendEvent ev tc))
        ∨ (dryRun = false
           ∧ ∃ ev, taskContext v
                   = AddSkippedDelete id
                       (SendEvent ev (AddAbandonedObject id tc))))).
Proof.
  revert r0. induction filters as [| f filters IH]; intros r0.
  - left. by split_and!.
  - simpl.
    destruct (filter.Filter f tc w obj) as [[fl r] [e |]] eqn:Hf; simpl.
    + right. rewrite orb_true_r. split_and!; [done | done |]. left. eauto.
    + destruct fl; [| apply IH]. right.
      destruct (decide _) as [Hname | Hname];
        [| simpl; split_and!; [done | done |]; right; left; eauto].
      destruct dryRun eqn:Hdry; simpl;
        [split_and!; [done | done |]; right; left; eauto |].
      destruct (removeInventoryAnnotation p obj w) as [[o [e |]] w'];
        simpl.
      * split_and!; [done | done |]. left. eauto.
      * split_and!; [done | done |]. right. right. eauto.
Qed.

(** The loop body leaves one of the four records, and in a dry run
    neither touches the cluster nor abandons the object. *)
Lemma step_outcome (st : TaskContext * World) (obj : Unstructured) :
  recorded (UnstructuredToObjMetaOrDie obj) st.1 (step st obj).1
  ∧ (dryRun = true ->
     (step st obj).2 = st.2
     ∧ abandonedObjects (step st obj).1 = abandonedObjects st.1).
Proof.
  destruct st as [tc w]. unfold pruneObject. cbn [fst snd].
  pose proof (filterLoop_outcome (UnstructuredToObjMetaOrDie obj)
                pruneFilters obj "" tc w) as H.
  cbv zeta in H.
  set (v := filterLoop _ _ _ _ _ _) in *.
  destruct H as [(Hfl & Herr & Hobj & Htc & Hw)
                | (Hstop & Hdry & Hrec)].
  - rewrite Hfl, Herr, Htc, Hw, Hobj. simpl.
    destruct dryRun eqn:Hd; simpl.
    + split; [constructor | done].
    + destruct (deleteObject p _ _ w) as [[e |] w']; simpl;
        (split; [constructor | done]).
  - rewrite Hstop. cbn [fst snd].
    destruct Hrec as [[ev ->] | [[ev ->] | [Hd [ev ->]]]].
    + split; [constructor | intros Hd; split; [auto | done]].
    + split; [constructor | intros Hd; split; [auto | done]].
    + split; [constructor | intros Hd'; congruence].
Qed.

(** The four records, read off the sets and the channel. *)
Lemma recorded_facts (id : ObjMetadata) (tc tc' : TaskContext) :
  recorded id tc tc' ->
  length (eventChannel tc') = S (length (eventChannel tc))
  ∧ successfulApplies tc' = successfulApplies tc
  ∧ failedApplies tc' = failedApplies tc
  ∧ skippedApplies tc' = skippedApplies tc
  ∧ successfulDeletes tc' = successfulDeletes tc
  ∧ failedDeletes tc ⊆ failedDeletes tc'
  ∧ failedDeletes tc' ⊆ failedDeletes tc ∪ {[id]}
  ∧ skippedDeletes tc ⊆ skippedDeletes tc'
  ∧ skippedDeletes tc' ⊆ skippedDeletes tc ∪ {[id]}
  ∧ abandonedObjects tc ⊆ abandonedObjects tc'
  ∧ abandonedObjects tc' ⊆ abandonedObjects tc ∪ ({[id]} ∩ skippedDeletes tc').
Proof.
  intros [ev | ev | ev | ev]; simpl; rewrite length_app; simpl;
    split_and!; try done; try lia; set_solver.
Qed.

End PruneMore.

(** The records of a whole run of the loop. *)
Lemma foldl_step_facts {World : Type} (p : prune.Pruner World)
  (pruneFilters : list (filter.ValidationFilter World))
  (opts : prune.Options) (eventFactory : prune.EventFactory)
  (objs : list Unstructured) (st : taskrunner.TaskContext * World) :
  let st' := foldl (prune.pruneObject p pruneFilters eventFactory opts)
               st objs in
  length (taskrunner.eventChannel st'.1)
  = length (taskrunner.eventChannel st.1) + length objs
  ∧ taskrunner.successfulApplies st'.1 = taskrunner.successfulApplies st.1
  ∧ taskrunner.failedApplies st'.1 = taskrunner.failedApplies st.1
  ∧ taskrunner.skippedApplies st'.1 = taskrunner.skippedApplies st.1
  ∧ taskrunner.successfulDeletes st'.1 = taskrunner.successfulDeletes st.1
  ∧ taskrunner.failedDeletes st.1 ⊆ taskrunner.failedDeletes st'.1
  ∧ taskrunner.failedDeletes st'.1
    ⊆ taskrunner.failedDeletes st.1 ∪ outcome.idsOf objs
  ∧ taskrunner.skippedDeletes st.1 ⊆ taskrunner.skippedDeletes st'.1
  ∧ taskrunner.skippedDeletes st'.1
    ⊆ taskrunner.skippedDeletes st.1 ∪ outcome.idsOf objs
  ∧ taskrunner.abandonedObjects st.1 ⊆ taskrunner.abandonedObjects st'.1
  ∧ taskrunner.abandonedObjects st'.1
    ⊆ taskrunner.abandonedObjects st.1
      ∪ (outcome.idsOf objs ∩ taskrunner.skippedDeletes st'.1)
  ∧ (common.ClientOrServerDryRun (prune.DryRunStrategy opts) = true ->
     st'.2 = st.2
     ∧ taskrunner.abandonedObjects st'.1 = taskrunner.abandonedObjects st.1).
Proof.
  revert st. induction objs as [| obj objs IH]; intros st.
  - simpl. unfold outcome.idsOf. simpl.
    split_and!; try done; try lia; set_solver.
  - cbn [foldl]. cbv zeta.
    destruct (step_outcome p pruneFilters opts eventFactory st obj)
      as [Hrec Hdry].
    apply recorded_facts in Hrec.
    destruct Hrec as (H1 & H2 & H3 & H4 & H5 & H6 & H7 & H8 & H9 & H10 & H11).
    specialize (IH (prune.pruneObject p pruneFilters eventFactory opts
                      st obj)).
    cbv zeta in IH.
    destruct IH as (I1 & I2 & I3 & I4 & I5 & I6 & I7 & I8 & I9 & I10 & I11
                    & Idry).
    unfold outcome.idsOf in *. rewrite fmap_cons, list_to_set_cons.
    split_and!.
    + rewrite I1, H1, length_cons. lia.
    + congruence.
    + congruence.
    + congruence.
    + congruence.
    + clear -H6 I6. set_solver.
    + clear -H7 I7. set_solver.
    + clear -H8 I8. set_solver.
    + clear -H9 I9. set_solver.
    + clear -H10 I10. set_solver.
    + clear -H11 I11 I8. set_solver.
    + intros Hd. destruct (Hdry Hd) as [Hw Hab].
      destruct (Idry Hd) as [Iw Iab]. split; congruence.
Qed.

(** X12: in a client or server dry run [Prune] leaves the cluster as it
    is, with no update and no delete, and abandons no object. *)
Theorem prune_dry_run_writes_nothing {World : Type} (p : prune.Pruner World)
  (objs : list Unstructured)
  (pruneFilters : list (filter.ValidationFilter World))
  (tc : taskrunner.TaskContext) (taskName : string) (opts : prune.Options)
  (w : World)
  (Hdry : common.ClientOrServerDryRun (prune.DryRunStrategy opts) = true) :
  let result := prune.Prune p objs pruneFilters tc taskName opts w in
  result.2 = w
  ∧ taskrunner.abandonedObjects result.1.2 = taskrunner.abandonedObjects tc.
Proof.
  simpl. unfold prune.Prune. cbn [fst snd].
  pose proof (foldl_step_facts p pruneFilters opts
                (prune.CreateEventFactory (prune.Destroy opts) taskName)
                objs (tc, w)) as H.
  cbv zeta in H.
  destruct H as (_ & _ & _ & _ & _ & _ & _ & _ & _ & _ & _ & H).
  exact (H Hdry).
Qed.

Lemma prune_dry_run_writes_nothing_witness :
  let result :=
    prune.Prune prunetest.testPruner
      [prunetest.podObject "pod-1" prunetest.owned;
       prunetest.podObject "pod-3" prunetest.owned]
      [prunetest.blockFilter] taskrunner.NewTaskContext "prune-0"
      fixtures.dryRunOptions prunetest.cluster in
  result.2 = prunetest.cluster
  ∧ taskrunner.abandonedObjects result.1.2 = ∅.
Proof.
  exact (prune_dry_run_writes_nothing prunetest.testPruner
           [prunetest.podObject "pod-1" prunetest.owned;
            prunetest.podObject "pod-3" prunetest.owned]
           [prunetest.blockFilter] taskrunner.NewTaskContext "prune-0"
           fixtures.dryRunOptions prunetest.cluster eq_refl).
Defined.

(** X13: [Prune] sends exactly one event for every object it is given. *)
Theorem prune_one_event_per_object {World : Type} (p : prune.Pruner World)
  (objs : list Unstructured)
  (pruneFilters : list (filter.ValidationFilter World))
  (tc : taskrunner.TaskContext) (taskName : string) (opts : prune.Options)
  (w : World) :
  let result := prune.Prune p objs pruneFilters tc taskName opts w in
  length (taskrunner.eventChannel result.1.2)
  = length (taskrunner.eventChannel tc) + length objs.
Proof.
  simpl. unfold prune.Prune. cbn [fst snd].
  pose proof (foldl_step_facts p pruneFilters opts
                (prune.CreateEventFactory (prune.Destroy opts) taskName)
                objs (tc, w)) as H.
  cbv zeta in H. exact (proj1 H).
Qed.

(** X14: [Prune] records outcomes of the objects it is given and of no
    other: the apply outcomes and the successful deletes stay as they
    are, the failed deletes, skipped deletes and abandoned objects only
    grow, and only by ids of the given objects; an object it abandons is
    among the skipped deletes as well. *)
Theorem prune_records_only_its_objects {World : Type}
  (p : prune.Pruner World) (objs : list Unstructured)
  (pruneFilters : list (filter.ValidationFilter World))
  (tc : taskrunner.TaskContext) (taskName : string) (opts : prune.Options)
  (w : World) :
  let tc' := (prune.Prune p objs pruneFilters tc taskName opts w).1.2 in
  taskrunner.successfulApplies tc' = taskrunner.successfulApplies tc
  ∧ taskrunner.failedApplies tc' = taskrunner.failedApplies tc
  ∧ taskrunner.skippedApplies tc' = taskrunner.skippedApplies tc
  ∧ taskrunner.successfulDeletes tc' = taskrunner.successfulDeletes tc
  ∧ taskrunner.failedDeletes tc ⊆ taskrunner.failedDeletes tc'
  ∧ taskrunner.failedDeletes tc'
    ⊆ taskrunner.failedDeletes tc ∪ outcome.idsOf objs
  ∧ taskrunner.skippedDeletes tc ⊆ taskrunner.skippedDeletes tc'
  ∧ taskrunner.skippedDeletes tc'
    ⊆ taskrunner.skippedDeletes tc ∪ outcome.idsOf objs
  ∧ taskrunner.abandonedObjects tc ⊆ taskrunner.abandonedObjects tc'
  ∧ taskrunner.abandonedObjects tc'
    ⊆ taskrunner.abandonedObjects tc
      ∪ (outcome.idsOf objs ∩ taskrunner.skippedDeletes tc').
Proof.
  simpl. unfold prune.Prune. cbn [fst snd].
  pose proof (foldl_step_facts p pruneFilters opts
                (prune.CreateEventFactory (prune.Destroy opts) taskName)
                objs (tc, w)) as H.
  cbv zeta in H.
  destruct H as (_ & H2 & H3 & H4 & H5 & H6 & H7 & H8 & H9 & H10 & H11 & _).
  by split_and!.
Qed.

(** X15: an object that every filter lets through is deleted with the
    propagation policy of the options and reported by a success event
    only: it enters no outcome set.  A delete error makes it a failed
    delete instead, and in a dry run the success event is sent without
    any delete. *)
Theorem prune_passed_object {World : Type} (p : prune.Pruner World)
  (pruneFilters : list (filter.ValidationFilter World))
  (eventFactory : prune.EventFactory) (opts : prune.Options)
  (tc : taskrunner.TaskContext) (w : World) (obj : Unstructured)
  (Hpass : Forall (prune.passes tc w obj) pruneFilters) :
  let id := UnstructuredToObjMetaOrDie obj in
  prune.pruneObject p pruneFilters eventFactory opts (tc, w) obj
  = if common.ClientOrServerDryRun (prune.DryRunStrategy opts) then
      (taskrunner.SendEvent (prune.CreateSuccessEvent eventFactory obj) tc,
       w)
    else
      match prune.deleteObject p id
              {| dynamic.PropagationPolicy :=
                   Some (prune.PropagationPolicy opts) |} w with
      | (None, w') =>
          (taskrunner.SendEvent
             (prune.CreateSuccessEvent eventFactory obj) tc, w')
      | (Some e, w') =>
          (taskrunner.AddFailedDelete id
             (taskrunner.SendEvent
                (prune.CreateFailedEvent eventFactory id e) tc), w')
      end.
Proof.
  simpl. unfold prune.pruneObject. cbn [fst snd].
  destruct (filterLoop_passes p opts eventFactory
              (UnstructuredToObjMetaOrDie obj) pruneFilters [] obj ""
              tc w Hpass) as [r Hloop].
  rewrite app_nil_r in Hloop. rewrite Hloop. simpl.
  destruct (common.ClientOrServerDryRun _); simpl; [done |].
  by destruct (prune.deleteObject p _ _ w) as [[e |] w'].
Qed.

(** The example cluster: pod-3 passes the filter and is deleted. *)
Lemma prune_passed_object_witness :
  let obj := prunetest.podObject "pod-3" prunetest.owned in
  let st :=
    prune.pruneObject prunetest.testPruner [prunetest.passFilter]
      prunetest.pruneEvents prunetest.testOptions
      (taskrunner.NewTaskContext, prunetest.cluster) obj in
  st.1 = taskrunner.SendEvent
           (prune.CreateSuccessEvent prunetest.pruneEvents obj)
           taskrunner.NewTaskContext
  ∧ st.2 !! fake.key prunetest.pods "test-namespace" "pod-3" = None.
Proof.
  cbv zeta.
  assert (Hpass : Forall (prune.passes taskrunner.NewTaskContext
                            prunetest.cluster
                            (prunetest.podObject "pod-3" prunetest.owned))
                    [prunetest.passFilter])
    by (repeat constructor; by exists "").
  rewrite (prune_passed_object prunetest.testPruner [prunetest.passFilter]
             prunetest.pruneEvents prunetest.testOptions
             taskrunner.NewTaskContext prunetest.cluster
             (prunetest.podObject "pod-3" prunetest.owned) Hpass).
  split; vm_compute; reflexivity.
Defined.

(** ** The list printer, read further *)

Section PrinterMore.

Import event common printer channel.

Context {Out : Type}.
Variable formatter : Formatter Out.
Variable printStatus : bool.

Lemma rangeOver_app (pre post : list Event) (l : locals Out) :
  rangeOver formatter printStatus (pre ++ post) l
  = match rangeOver formatter printStatus pre l with
    | Continue l' => rangeOver formatter printStatus post l'
    | Return err o => Return err o
    end.
Proof.
  revert l. induction pre as [| e pre IH]; intros l; simpl; [done |].
  destruct (handle formatter printStatus l e); [apply IH | done].
Qed.

Ltac handle_cases H :=
  unfold handle, checked in H;
  repeat match type of H with
  | context [match ?x with _ => _ end] =>
      destruct x eqn:?; simpl in H; try discriminate H
  end;
  simplify_eq; simpl.

(** One turn of the loop changes the status collector only at a status
    event, where it stores the event under its id. *)
Lemma handle_collects (l l' : locals Out) (e : Event) :
  handle formatter printStatus l e = Continue l' ->
  statusCollector l'
  = match e with
    | StatusType se => <[seIdentifier se := se]> (statusCollector l)
    | _ => statusCollector l
    end.
Proof.
  intros H. destruct e; handle_cases H; done.
Qed.

Lemma rangeOver_collects (ch : list Event) (l l' : locals Out)
  (id : ObjMetadata) :
  rangeOver formatter printStatus ch l = Continue l' ->
  statusCollector l' !! id
  = match last (statusEventsOf id ch) with
    | Some se => Some se
    | None => statusCollector l !! id
    end.
Proof.
  revert l'. induction ch as [| e ch IH] using rev_ind; intros l' Hrun.
  - simpl in Hrun. by injection Hrun as <-.
  - rewrite rangeOver_app in Hrun.
    destruct (rangeOver formatter printStatus ch l) as [l1 |] eqn:Hch;
      [| discriminate].
    simpl in Hrun.
    destruct (handle formatter printStatus l1 e) as [l2 |] eqn:Hh;
      [| discriminate].
    injection Hrun as <-.
    rewrite (handle_collects _ _ _ Hh).
    unfold statusEventsOf. rewrite omap_app. simpl.
    fold (statusEventsOf id ch).
    destruct e as [| | | se | | | |]; simpl;
      rewrite ?app_nil_r; try by apply IH.
    unfold updateStatus. rewrite lookup_insert.
    destruct (decide (seIdentifier se = id)) as [Heq | Hne]; simpl.
    + by rewrite last_snoc.
    + rewrite app_nil_r. by apply IH.
Qed.

End PrinterMore.

(** X16: an error event ends [Print] with the error of the event: the
    events after it are neither formatted nor counted, the failures and
    timeouts before it do not show in the result, and a failure of the
    formatter on the error event itself is ignored. *)
Theorem print_stops_at_error_event {Out : Type}
  (b : printer.BaseListPrinter Out) (pre post : list event.Event)
  (err : option error) (previewStrategy : common.DryRunStrategy)
  (printStatus : bool) (o : Out) (l : printer.locals Out)
  (Hpre : printer.rangeOver (printer.FormatterFactory b previewStrategy)
            printStatus pre (printer.initial o) = printer.Continue l) :
  printer.Print b (pre ++ event.ErrorType err :: post) previewStrategy
    printStatus o
  = (err,
     (printer.FormatErrorEvent (printer.FormatterFactory b previewStrategy)
        err (printer.out l)).2).
Proof.
  unfold printer.Print. rewrite rangeOver_app, Hpre. reflexivity.
Qed.

Lemma print_stops_at_error_event_witness :
  printer.Print printer.quietPrinter
    ([printer.sampleFailure] ++ event.ErrorType (Some fixtures.conflict)
       :: [printer.sampleTimeout])
    common.DryRunNone false tt
  = (Some fixtures.conflict, tt).
Proof.
  exact (print_stops_at_error_event printer.quietPrinter
           [printer.sampleFailure] [printer.sampleTimeout]
           (Some fixtures.conflict) common.DryRunNone false tt _ eq_refl).
Defined.

(** X17: when the loop of [Print] reaches the end of the channel, the
    status collector holds, for every object, the last status event the
    channel carried for it, and nothing for an object without status
    event. *)
Theorem print_collects_latest_status {Out : Type}
  (formatter : printer.Formatter Out) (printStatus : bool)
  (ch : list event.Event) (o : Out) (l : printer.locals Out)
  (id : ObjMetadata)
  (Hrun : printer.rangeOver formatter printStatus ch (printer.initial o)
          = printer.Continue l) :
  printer.statusCollector l !! id = last (channel.statusEventsOf id ch).
Proof.
  rewrite (rangeOver_collects formatter printStatus ch _ _ id Hrun).
  simpl. rewrite lookup_empty. by destruct (last _).
Qed.

Lemma print_collects_latest_status_witness :
  let first := {| event.seIdentifier := fake.pod1;
                  event.seStatus := "InProgress" |} in
  let second := {| event.seIdentifier := fake.pod1;
                   event.seStatus := "Current" |} in
  ∃ l, printer.rangeOver printer.quietFormatter false
         [event.StatusType first; printer.sampleTimeout;
          event.StatusType second] (printer.initial tt)
       = printer.Continue l
       ∧ printer.statusCollector l !! fake.pod1 = Some second.
Proof.
  cbv zeta. eexists. split; [reflexivity |].
  apply (print_collects_latest_status printer.quietFormatter false
           [event.StatusType {| event.seIdentifier := fake.pod1;
                                event.seStatus := "InProgress" |};
            printer.sampleTimeout;
            event.StatusType {| event.seIdentifier := fake.pod1;
                                event.seStatus := "Current" |}]
           tt _ fake.pod1 eq_refl).
Defined.

Section PrinterCounters.

Import event common printer channel.

Context {Out : Type}.
Variable formatter : Formatter Out.
Variable printStatus : bool.

Ltac counter_cases H :=
  unfold handle, checked in H;
  repeat match type of H with
  | context [match ?x with _ => _ end] =>
      destruct x eqn:?; simpl in H; try discriminate H
  end;
  simplify_eq; simpl.

Ltac counters_eq :=
  unfold incr, bit; rewrite ?wrap64_small by lia;
  repeat (apply (f_equal2 (@cons Z));
          [repeat case_bool_decide; simplify_eq; try lia |]);
  try reflexivity.

(** One turn of the loop adds one to the counter of the operation of the
    event and leaves the other counters. *)
Lemma handle_counters (l l' : locals Out) (e : Event) :
  handle formatter printStatus l e = Continue l' ->
  Forall (room 1) (counters l) ->
  counters l'
  = zip_with Z.add (counters l) ((fun q => bit (q e)) <$> counted).
Proof.
  intros H Hroom. unfold counters in Hroom.
  rewrite !Forall_cons in Hroom. unfold room in Hroom.
  destruct Hroom as (R1 & R2 & R3 & R4 & R5 & R6 & R7 & R8 & R9 & R10 & _).
  unfold counters, counted.
  destruct e as [ags | err | ae | se | pe | de | we | age].
  - counter_cases H. counters_eq.
  - discriminate H.
  - destruct ae as [id [] aerr]; counter_cases H; counters_eq.
  - counter_cases H; counters_eq.
  - destruct pe as [g id op obj why perr]. counter_cases H; counters_eq.
  - destruct de as [g id op obj why derr]. counter_cases H; counters_eq.
  - destruct we as [id op]. counter_cases H; counters_eq.
  - counter_cases H. counters_eq.
Qed.

Lemma rangeOver_counters (ch : list Event) (l l' : locals Out) :
  rangeOver formatter printStatus ch l = Continue l' ->
  Forall (room (Z.of_nat (length ch))) (counters l) ->
  counters l'
  = zip_with Z.add (counters l) ((fun q => countEvents q ch) <$> counted).
Proof.
  revert l. induction ch as [| e ch IH]; intros l Hrun Hroom.
  - simpl in Hrun. injection Hrun as <-.
    unfold counters, counted, countEvents. simpl. counters_eq.
  - simpl in Hrun.
    destruct (handle formatter printStatus l e) as [l1 |] eqn:Hh;
      [| discriminate].
    assert (Hstep := handle_counters l l1 e Hh).
    rewrite length_cons in Hroom.
    unfold counters in Hroom. rewrite !Forall_cons in Hroom.
    unfold room in Hroom.
    destruct Hroom as (R1 & R2 & R3 & R4 & R5 & R6 & R7 & R8 & R9 & R10 & _).
    rewrite (IH l1 Hrun).
    + rewrite Hstep.
      * unfold counters, counted. simpl. rewrite !countEvents_cons.
        repeat (apply (f_equal2 (@cons Z)); [lia |]). reflexivity.
      * unfold counters. rewrite !Forall_cons. unfold room.
        split_and!; try done; lia.
    + rewrite Hstep.
      * unfold counters, counted. simpl.
        rewrite !Forall_cons. unfold room.
        repeat match goal with
        | |- context [bit ?b] => destruct b; simpl
        end; split_and!; try done; lia.
      * unfold counters. rewrite !Forall_cons. unfold room.
        split_and!; try done; lia.
Qed.

End PrinterCounters.

(** X18: when the loop of [Print] reaches the end of a channel of fewer
    than 2^63 events, each operation counter of the statistics holds the
    number of events of its operation: server-side applied, created,
    unchanged and configured applies, pruned and skipped prunes, deleted
    and skipped deletes, reconciled and skipped waits.  An event of
    unspecified operation counts nowhere. *)
Theorem print_counts_operations {Out : Type}
  (formatter : printer.Formatter Out) (printStatus : bool)
  (ch : list event.Event) (o : Out) (l : printer.locals Out)
  (Hrun : printer.rangeOver formatter printStatus ch (printer.initial o)
          = printer.Continue l)
  (Hlen : (Z.of_nat (length ch) < 2 ^ 63)%Z) :
  channel.counters l
  = (fun q => printer.countEvents q ch) <$> channel.counted.
Proof.
  rewrite (rangeOver_counters formatter printStatus ch _ _ Hrun).
  - unfold channel.counters, channel.counted. simpl.
    repeat (apply (f_equal2 (@cons Z)); [lia |]). reflexivity.
  - unfold channel.counters. simpl. rewrite !Forall_cons.
    unfold channel.room.
    split_and!; try done; lia.
Qed.

Lemma print_counts_operations_witness :
  ∃ l, printer.rangeOver printer.quietFormatter false
         [fixtures.createdEvent; fixtures.prunedEvent;
          printer.sampleTimeout] (printer.initial tt)
       = printer.Continue l
       ∧ channel.counters l = [0; 1; 0; 0; 1; 0; 0; 0; 0; 0]%Z.
Proof.
  destruct (printer.rangeOver printer.quietFormatter false
              [fixtures.createdEvent; fixtures.prunedEvent;
               printer.sampleTimeout]
              (printer.initial tt)) as [l | err o] eqn:Hrun;
    [| vm_compute in Hrun; discriminate Hrun].
  exists l. split; [reflexivity |].
  assert (Hlen : (Z.of_nat (length [fixtures.createdEvent;
                                    fixtures.prunedEvent;
                                    printer.sampleTimeout]) < 2 ^ 63)%Z)
    by (simpl; lia).
  rewrite (print_counts_operations printer.quietFormatter false
             [fixtures.createdEvent; fixtures.prunedEvent;
              printer.sampleTimeout] tt l Hrun Hlen).
  vm_compute. reflexivity.
Defined.

(** ** The action groups of the list printer *)

Lemma isLastLoop_found (age : event.ActionGroupEvent)
  (ags : list event.ActionGroup) :
  actiongroup.isLastLoop age ags true (event.ageAction age) = false
  ↔ ∃ ag, ag ∈ ags ∧ event.agAction ag = event.ageAction age.
Proof.
  induction ags as [| ag rest IH]; simpl.
  - split; [done |]. intros (ag & Hin & _). by apply elem_of_nil in Hin.
  - case_bool_decide as Hact.
    + split; [| done]. intros _. exists ag. split; [left | done].
    + assert (Hsame : (if decide (event.ageGroupName age = event.agName ag)
                       then actiongroup.isLastLoop age rest true
                              (event.ageAction age)
                       else actiongroup.isLastLoop age rest true
                              (event.ageAction age))
                      = actiongroup.isLastLoop age rest true
                          (event.ageAction age))
        by (by destruct (decide _)).
      rewrite Hsame, IH. split.
      * intros (ag' & Hin & Heq). exists ag'. split; [by right | done].
      * intros (ag' & Hin & Heq). apply elem_of_cons in Hin as [-> | Hin].
        -- by symmetry in Heq.
        -- by exists ag'.
Qed.

Lemma isLastLoop_not_found (age : event.ActionGroupEvent)
  (ags : list event.ActionGroup) (action : event.ResourceAction) :
  actiongroup.isLastLoop age ags false action = false
  ↔ ∃ i j ag1 ag2,
      i < j ∧ ags !! i = Some ag1 ∧ ags !! j = Some ag2
      ∧ event.agName ag1 = event.ageGroupName age
      ∧ event.agAction ag2 = event.ageAction age.
Proof.
  induction ags as [| ag rest IH]; simpl.
  - split; [done |]. by intros (i & j & ag1 & ag2 & _ & Hi & _).
  - destruct (decide (event.ageGroupName age = event.agName ag))
      as [Hname | Hname].
    + rewrite isLastLoop_found. split.
      * intros (ag2 & Hin & Hact).
        apply list_elem_of_lookup in Hin as [j Hj].
        exists 0, (S j), ag, ag2. split_and!; [lia | done..].
      * intros (i & j & ag1 & ag2 & Hlt & Hi & Hj & _ & Hact).
        destruct j as [| j]; [lia |]. simpl in Hj.
        exists ag2. split; [| done]. by eapply list_elem_of_lookup_2.
    + rewrite IH. split.
      * intros (i & j & ag1 & ag2 & Hlt & Hi & Hj & Hn & Hact).
        exists (S i), (S j), ag1, ag2. split_and!; [lia | done..].
      * intros (i & j & ag1 & ag2 & Hlt & Hi & Hj & Hn & Hact).
        destruct j as [| j]; [lia |].
        destruct i as [| i].
        -- simpl in Hi. injection Hi as ->. by symmetry in Hn.
        -- exists i, j, ag1, ag2. split_and!; [lia | done..].
Qed.

(** X19: [ActionGroupByName] returns, with true, the first group of
    the slice that carries the name: every group before it has another
    name.  When no group carries the name it returns the zero group
    and false. *)
Theorem ActionGroupByName_first (name : string)
  (ags : list event.ActionGroup) :
  match actiongroup.ActionGroupByName name ags with
  | (ag, true) =>
      ∃ pre post, ags = pre ++ ag :: post
        ∧ event.agName ag = name
        ∧ Forall (fun a => event.agName a ≠ name) pre
  | (ag, false) =>
      ag = actiongroup.zeroActionGroup
      ∧ Forall (fun a => event.agName a ≠ name) ags
  end.
Proof.
  induction ags as [| a rest IH]; simpl.
  - done.
  - destruct (decide (event.agName a = name)) as [Hname | Hname].
    + exists [], rest. by split_and!.
    + destruct (actiongroup.ActionGroupByName name rest) as [ag []].
      * destruct IH as (pre & post & -> & Hag & Hpre).
        exists (a :: pre), post. split_and!; [done | done |].
        by constructor.
      * destruct IH as [-> Hall]. split; [done |]. by constructor.
Qed.

(** X20: [IsLastActionGroup] returns false exactly when the slice holds
    a group with the name of the event and, at a later position, a group
    with the action of the event; in every other case, also when no
    group has the name of the event, it returns true. *)
Theorem IsLastActionGroup_false_iff (age : event.ActionGroupEvent)
  (ags : list event.ActionGroup) :
  actiongroup.IsLastActionGroup age ags = false
  ↔ ∃ i j ag1 ag2,
      i < j ∧ ags !! i = Some ag1 ∧ ags !! j = Some ag2
      ∧ event.agName ag1 = event.ageGroupName age
      ∧ event.agAction ag2 = event.ageAction age.
Proof.
  unfold actiongroup.IsLastActionGroup. apply isLastLoop_not_found.
Qed.
